(** * autocertdns: DNS-01 certificate renewal and its DNS provisioners

    A shallow embedding of the Go package [autocertdns] (the certificate
    manager) and of its two provisioners, [godop] (DigitalOcean) and [gcdnsp]
    (Google Cloud DNS), with the properties of their specification.

    The manager is embedded from [autocertdns.go] and [godop] from
    [godop/godop.go]; [gcdnsp] from the one revision of [gcdnsp.go] there is;
    of the command [autogcdns], the lookup of the managed zone.
    An earlier revision of [autocertdns.go] is not embedded: its [renew]
    loads the account key by other means, loads no domain key and signs the
    request with the account key.

    Go strings are byte strings and are modelled by [string]; Go's [error]
    values by the inductive [error]; a pair [(value, err)] by a sum or, where
    the code looks at both, a pair.  The services the code talks to (the
    DigitalOcean and Google Cloud DNS APIs, the nameservers, the ACME
    authority, the file system, the key generator) are small models whose
    answers and failures can be scripted, so that every outcome the code can
    observe is covered.  A context is not a value of the model: its
    cancellation or deadline shows as the error a call returns.

    Methods of the manager run in a monad of state, early return and events:
    the events are what the method does to the outside, in order. *)

From Stdlib Require Import ZArith Ascii String.
From stdpp Require Import base tactics option list gmap strings.

Local Open Scope Z_scope.

(** ** Go values shared by the packages *)

(** Go's [error] interface, restricted to the errors this program builds or
    inspects.  [Errorf] keeps the format and its arguments apart instead of
    rendering the message, so that wrapped errors stay recognisable.  An
    operand of a variadic call is a string, an error, or a whole
    [[]interface{}] slice handed over as one value. *)
#[warnings="-register-all"] Inductive error : Type :=
| errors_New (msg : string)
| fmt_Errorf (format : string) (args : list fmtarg)
| acme_Error (StatusCode : Z)
| os_PathError (notExist : bool)
| context_Canceled
| context_DeadlineExceeded
with fmtarg : Type :=
| ArgString (s : string)
| ArgError (e : error)
| ArgSlice (v : list fmtarg).

(** ** Package [strings] of the Go standard library *)

Module strings.

(** [s[i:j]] *)
Definition slice (s : string) (i j : nat) : string :=
  String.substring i (j - i) s.

(** [HasSuffix]: [len(s) >= len(suffix) && s[len(s)-len(suffix):] == suffix] *)
Definition HasSuffix (s suffix : string) : bool :=
  (String.length suffix <=? String.length s)%nat &&
  String.eqb (slice s (String.length s - String.length suffix) (String.length s)) suffix.

(** [TrimSuffix]: [s] without the trailing [suffix], or [s] itself. *)
Definition TrimSuffix (s suffix : string) : string :=
  if HasSuffix s suffix
  then slice s 0 (String.length s - String.length suffix)
  else s.

Fixpoint TrimLeftFunc (s : string) (f : ascii → bool) : string :=
  match s with
  | EmptyString => EmptyString
  | String c s' => if f c then TrimLeftFunc s' f else s
  end.

Definition TrimRightFunc (s : string) (f : ascii → bool) : string :=
  String.rev (TrimLeftFunc (String.rev s) f).

(** [TrimFunc]: all leading and trailing bytes satisfying [f] removed.  The
    only predicate used here tests for the ASCII double quote, for which
    trimming bytes and trimming runes agree. *)
Definition TrimFunc (s : string) (f : ascii → bool) : string :=
  TrimRightFunc (TrimLeftFunc s f) f.

End strings.

(** ** Package [godo]: the DigitalOcean domains API, as an in-memory service *)

Module godo.

Record DomainRecord : Type := mkRecord {
  ID : Z;
  Type_ : string;
  Name : string;
  Data : string
}.

Record DomainRecordEditRequest : Type := mkEdit {
  edit_Type : string;
  edit_Name : string;
  edit_Data : string
}.

(** A request received by the service. *)
Inductive call : Type :=
| CallCreateRecord (domain : string) (req : DomainRecordEditRequest)
| CallRecords (domain : string)
| CallDeleteRecord (domain : string) (id : Z).

(** The service: the records of every domain, the next record id, the
    requests received so far (oldest first), and a script of failures: each
    request consumes the head of [faults] and fails with it, untouched
    state, when it is [Some]. *)
Record Service : Type := mkService {
  zones : gmap string (list DomainRecord);
  next_id : Z;
  faults : list (option error);
  calls : list call
}.

Definition receive (c : call) (s : Service) : option error * Service :=
  (mjoin (head (faults s)),
   mkService (zones s) (next_id s) (tail (faults s)) (calls s ++ [c])).

Definition set_zone (domain : string) (rs : list DomainRecord) (s : Service) : Service :=
  mkService (<[domain := rs]> (zones s)) (next_id s) (faults s) (calls s).

Definition not_found : error := errors_New "404 domain not found".

(** [Domains.CreateRecord] *)
Definition CreateRecord (domain : string) (req : DomainRecordEditRequest)
    (s : Service) : option error * Service :=
  match receive (CallCreateRecord domain req) s with
  | (Some e, s1) => (Some e, s1)
  | (None, s1) =>
      match zones s1 !! domain with
      | None => (Some not_found, s1)
      | Some rs =>
          let r := mkRecord (next_id s1) (edit_Type req) (edit_Name req) (edit_Data req) in
          (None, mkService (<[domain := rs ++ [r]]> (zones s1)) (next_id s1 + 1)
                           (faults s1) (calls s1))
      end
  end.

(** [Domains.Records] *)
Definition Records (domain : string) (s : Service)
    : list DomainRecord * option error * Service :=
  match receive (CallRecords domain) s with
  | (Some e, s1) => ([], Some e, s1)
  | (None, s1) =>
      match zones s1 !! domain with
      | None => ([], Some not_found, s1)
      | Some rs => (rs, None, s1)
      end
  end.

Definition remove_id (id : Z) (rs : list DomainRecord) : list DomainRecord :=
  List.filter (fun r => negb (ID r =? id)) rs.

(** [Domains.DeleteRecord] *)
Definition DeleteRecord (domain : string) (id : Z) (s : Service)
    : option error * Service :=
  match receive (CallDeleteRecord domain id) s with
  | (Some e, s1) => (Some e, s1)
  | (None, s1) =>
      match zones s1 !! domain with
      | None => (Some not_found, s1)
      | Some rs => (None, set_zone domain (remove_id id rs) s1)
      end
  end.

End godo.

(** ** Package [godop] ([src/godop/godop.go]) *)

Module godop.

(** [Client]: the wrapped [godo.Client] is the service above, threaded
    through the calls; what remains is the managed domain. *)
Record Client : Type := New { domain : string }.

(** The loop of [Unprovision]: the first record whose name, type and data
    all match is deleted and the function returns; the others are skipped. *)
Fixpoint delete_first_match (c : Client) (name token : string)
    (records : list godo.DomainRecord) (s : godo.Service)
    : option error * godo.Service :=
  match records with
  | [] => (Some (errors_New "record not deleted"), s)
  | record :: rest =>
      if negb (String.eqb (godo.Name record) name)
         || negb (String.eqb (godo.Type_ record) "TXT")
         || negb (String.eqb (godo.Data record) token)
      then delete_first_match c name token rest s
      else
        match godo.DeleteRecord (domain c) (godo.ID record) s with
        | (Some err, s1) => (Some err, s1)
        | (None, s1) => (None, s1)
        end
  end.

Definition Provision (c : Client) (typ name token : string) (s : godo.Service)
    : option error * godo.Service :=
  if negb (String.eqb typ "TXT") then
    (Some (errors_New "only TXT records are supported"), s)
  else if negb (strings.HasSuffix name ("." +:+ domain c)) then
    (Some (errors_New "invalid domain"), s)
  else
    let name := strings.slice name 0
                  (String.length name - String.length (domain c) - 1) in
    if String.eqb name "" then
      (Some (errors_New "invalid name"), s)
    else
      match godo.CreateRecord (domain c) (godo.mkEdit "TXT" name token) s with
      | (Some err, s1) => (Some err, s1)
      | (None, s1) => (None, s1)
      end.

Definition Unprovision (c : Client) (typ name token : string) (s : godo.Service)
    : option error * godo.Service :=
  if negb (String.eqb typ "TXT") then
    (Some (errors_New "only TXT records are supported"), s)
  else if negb (strings.HasSuffix name ("." +:+ domain c)) then
    (Some (errors_New "invalid domain"), s)
  else
    let name := strings.slice name 0
                  (String.length name - String.length (domain c) - 1) in
    if String.eqb name "" then
      (Some (errors_New "invalid name"), s)
    else
      match godo.Records (domain c) s with
      | (_, Some err, s1) => (Some err, s1)
      | (records, None, s1) => delete_first_match c name token records s1
      end.

End godop.

(** ** Package [dns]: the Google Cloud DNS API, as an in-memory service *)

Module dns.

Record ResourceRecordSet : Type := mkRRSet {
  Type_ : string;
  Name : string;
  Rrdatas : list string;
  Ttl : Z
}.

#[global] Instance ResourceRecordSet_eq_dec : EqDecision ResourceRecordSet.
Proof. solve_decision. Defined.

Record Change : Type := mkChange {
  Additions : list ResourceRecordSet;
  Deletions : list ResourceRecordSet
}.

Inductive call : Type :=
| CallChangesCreate (project managedZone : string) (ch : Change)
| CallResourceRecordSetsList (project managedZone : string).

(** The service: the record sets of every (project, managed zone), the
    number of record sets it returns per page (minus one), the requests
    received so far and a script of failures, as for [godo.Service]. *)
Record Service : Type := mkService {
  zones : gmap (string * string) (list ResourceRecordSet);
  page_size : nat;
  faults : list (option error);
  calls : list call
}.

Definition receive (c : call) (s : Service) : option error * Service :=
  (mjoin (head (faults s)),
   mkService (zones s) (page_size s) (tail (faults s)) (calls s ++ [c])).

Definition not_found : error := errors_New "404 managed zone not found".

(** Removal of the first record set equal to [d]. *)
Fixpoint remove_first (d : ResourceRecordSet) (rs : list ResourceRecordSet)
    : list ResourceRecordSet :=
  match rs with
  | [] => []
  | r :: rest => if decide (r = d) then rest else r :: remove_first d rest
  end.

Definition apply_change (ch : Change) (rs : list ResourceRecordSet)
    : list ResourceRecordSet :=
  foldr remove_first rs (Deletions ch) ++ Additions ch.

(** [NewChangesService(svc).Create(project, zone, change).Do()] *)
Definition ChangesCreate (project managedZone : string) (ch : Change)
    (s : Service) : option error * Service :=
  match receive (CallChangesCreate project managedZone ch) s with
  | (Some e, s1) => (Some e, s1)
  | (None, s1) =>
      match zones s1 !! (project, managedZone) with
      | None => (Some not_found, s1)
      | Some rs =>
          (None, mkService (<[(project, managedZone) := apply_change ch rs]> (zones s1))
                           (page_size s1) (faults s1) (calls s1))
      end
  end.

(** Pages of at most [S n] elements. *)
Fixpoint paginate {A} (fuel n : nat) (l : list A) : list (list A) :=
  match fuel, l with
  | O, _ | _, [] => []
  | S fuel', _ => take (S n) l :: paginate fuel' n (drop (S n) l)
  end.

(** [NewResourceRecordSetsService(svc).List(project, zone)]: the pages that
    [Pages] hands to its callback, or the error it returns. *)
Definition ResourceRecordSetsList (project managedZone : string) (s : Service)
    : list (list ResourceRecordSet) * option error * Service :=
  match receive (CallResourceRecordSetsList project managedZone) s with
  | (Some e, s1) => ([], Some e, s1)
  | (None, s1) =>
      match zones s1 !! (project, managedZone) with
      | None => ([], Some not_found, s1)
      | Some rs => (paginate (length rs) (page_size s1) rs, None, s1)
      end
  end.

End dns.

(** ** Package [dnsr] (miekg/dns): what a nameserver answers *)

Module dnsr.

Inductive RR : Type :=
| TXT (Txt : list string)
| OtherRR.

(** The result of [Client.Exchange]. *)
Inductive Response : Type :=
| Reply (Answer : list RR)
| ExchangeError.

End dnsr.

(** ** Package [gcdnsp] *)

Module gcdnsp.

Definition allowedRecordType : string := "TXT".

Record Client : Type := mkClient {
  projectID : string;
  managedZone : string;
  domain : string;
  nameservers : list string
}.

Inductive logline : Type :=
| Logf (format : string) (args : list string)
| Errf (format : string) (args : list fmtarg).

(** What the client acts on: the Cloud DNS service; for every nameserver
    and question name, the answers it gives to the successive queries of
    one poller for as long as that poller finds the context open, after
    which the context is done with [ctx_err]; and the lines written through
    [logf] and [errf].  The pollers run as goroutines of an errgroup; their
    interleaving and the clock are not part of the model, only what each of
    them returns. *)
Record Env : Type := mkEnv {
  svc : dns.Service;
  answers : string → string → list dnsr.Response;
  ctx_err : error;
  log : list logline
}.

Definition with_svc (s : dns.Service) (e : Env) : Env :=
  mkEnv s (answers e) (ctx_err e) (log e).

Definition logged (l : logline) (e : Env) : Env :=
  mkEnv (svc e) (answers e) (ctx_err e) (log e ++ [l]).

Definition is_quote (r : ascii) : bool := Ascii.eqb r "034"%char.

(** [contains] returns true if [haystack] contains [needle]. *)
Fixpoint contains (haystack : list string) (needle : string) : bool :=
  match haystack with
  | [] => false
  | s :: rest =>
      if String.eqb needle (strings.TrimFunc s is_quote) then true
      else contains rest needle
  end.

(** The inner loop over [res.Answer]. *)
Fixpoint answer_has (Answer : list dnsr.RR) (token : string) : bool :=
  match Answer with
  | [] => false
  | dnsr.TXT Txt :: rest => if contains Txt token then true else answer_has rest token
  | dnsr.OtherRR :: rest => answer_has rest token
  end.

(** One poller of [Provision]: it returns [nil] at the first answer holding
    the token, and the context's error once the context is done. *)
Fixpoint poll (token : string) (responses : list dnsr.Response) (done : error)
    : option error :=
  match responses with
  | [] => Some done
  | dnsr.Reply Answer :: rest =>
      if (0 <? length Answer)%nat && answer_has Answer token then None
      else poll token rest done
  | dnsr.ExchangeError :: rest => poll token rest done
  end.

(** [eg.Wait()]: the first error returned by a poller, if any. *)
Fixpoint Wait (results : list (option error)) : option error :=
  match results with
  | [] => None
  | Some err :: _ => Some err
  | None :: rest => Wait rest
  end.

Definition Provision (c : Client) (typ name token : string) (e : Env)
    : option error * Env :=
  if negb (String.eqb typ allowedRecordType) then
    (Some (errors_New "only TXT records are supported"), e)
  else if negb (strings.HasSuffix name ("." +:+ domain c)) then
    (Some (errors_New "invalid domain"), e)
  else if String.eqb (strings.TrimSuffix name ("." +:+ domain c)) "" then
    (Some (errors_New "invalid name"), e)
  else
    let name := name +:+ "." in
    let e := logged (Logf "provisioning (type: %s, name: %s, token: %s)"
                          [typ; name; token]) e in
    match dns.ChangesCreate (projectID c) (managedZone c)
            (dns.mkChange [dns.mkRRSet typ name [token] 1] []) (svc e) with
    | (Some err, s1) =>
        (Some err,
         logged (Errf "unable to provision (type: %s, name: %s, token: %s): %v"
                      [ArgString typ; ArgString name; ArgString token; ArgError err])
                (with_svc s1 e))
    | (None, s1) =>
        let e := with_svc s1 e in
        match Wait (map (fun ns => poll token (answers e ns name) (ctx_err e))
                        (nameservers c)) with
        | Some err => (Some err, e)
        | None => (None, e)
        end
    end.

(** The callback given to [Pages]: the record sets of one page that match
    are appended to [deletions]. *)
Fixpoint collect (name token : string) (Rrsets deletions : list dns.ResourceRecordSet)
    : list dns.ResourceRecordSet :=
  match Rrsets with
  | [] => deletions
  | rrSet :: rest =>
      if negb (String.eqb (dns.Name rrSet) name)
         || negb (String.eqb (dns.Type_ rrSet) allowedRecordType)
         || negb (contains (dns.Rrdatas rrSet) token)
      then collect name token rest deletions
      else collect name token rest (deletions ++ [rrSet])
  end.

Definition Unprovision (c : Client) (typ name token : string) (e : Env)
    : option error * Env :=
  if negb (String.eqb typ allowedRecordType) then
    (Some (errors_New "only TXT records are supported"), e)
  else if negb (strings.HasSuffix name ("." +:+ domain c)) then
    (Some (errors_New "invalid domain"), e)
  else if String.eqb (strings.TrimSuffix name ("." +:+ domain c)) "" then
    (Some (errors_New "invalid name"), e)
  else
    let name := name +:+ "." in
    match dns.ResourceRecordSetsList (projectID c) (managedZone c) (svc e) with
    | (_, Some err, s1) =>
        (Some err,
         logged (Errf "could not retrieve records (type: %s, name: %s, token: %s): %v"
                      [ArgString typ; ArgString name; ArgString token; ArgError err])
                (with_svc s1 e))
    | (pages, None, s1) =>
        let e := with_svc s1 e in
        let deletions := foldl (fun ds page => collect name token page ds) [] pages in
        if (length deletions <? 1)%nat then
          (None,
           logged (Errf "could not find record (type: %s, name: %s, token: %s)"
                        [ArgString typ; ArgString name; ArgString token]) e)
        else
          let e := logged (Logf "unprovisioning (type: %s, name: %s, token: %s)"
                                [typ; name; token]) e in
          match dns.ChangesCreate (projectID c) (managedZone c)
                  (dns.mkChange [] deletions) (svc e) with
          | (Some err, s2) =>
              (Some err,
               logged (Errf "unable to unprovision (type: %s, name: %s, token: %s): %v"
                            [ArgString typ; ArgString name; ArgString token; ArgError err])
                      (with_svc s2 e))
          | (None, s2) => (None, with_svc s2 e)
          end
    end.

End gcdnsp.

(** ** Package [path/filepath] of the Go standard library (Unix) *)

Module filepath.

Definition is_sep (c : ascii) : bool := Ascii.eqb c "/"%char.

(** The elements of a path: the pieces between separators. *)
Fixpoint elements (path : string) : list string :=
  match path with
  | EmptyString => [EmptyString]
  | String c rest =>
      if is_sep c then EmptyString :: elements rest
      else match elements rest with
           | [] => [String c EmptyString]
           | e :: es => String c e :: es
           end
  end.

(** One element processed by [Clean]; [out] is the cleaned path so far, last
    element first. *)
Definition clean_step (rooted : bool) (out : list string) (e : string) : list string :=
  if String.eqb e "" || String.eqb e "." then out
  else if String.eqb e ".." then
    match out with
    | [] => if rooted then [] else [".."]
    | top :: below => if String.eqb top ".." then ".." :: out else below
    end
  else e :: out.

Fixpoint join_sep (es : list string) : string :=
  match es with
  | [] => ""
  | [e] => e
  | e :: rest => e +:+ "/" +:+ join_sep rest
  end.

(** [Clean]: the shortest path equivalent to [path] by lexical processing. *)
Definition Clean (path : string) : string :=
  match path with
  | EmptyString => "."
  | String c _ =>
      let rooted := is_sep c in
      let out := rev (foldl (clean_step rooted) [] (elements path)) in
      if rooted then "/" +:+ join_sep out
      else match out with [] => "." | _ => join_sep out end
  end.

(** [Join(dir, file)]: empty elements are ignored, the result is cleaned. *)
Definition Join (dir file : string) : string :=
  if negb (String.eqb dir "") then Clean (dir +:+ "/" +:+ file)
  else if negb (String.eqb file "") then Clean file
  else "".

End filepath.

(** ** Package [time] of the Go standard library *)

Module time.

(** Instants and durations in nanoseconds; a [Duration] is an [int64]. *)
Definition Time : Type := Z.
Definition Duration : Type := Z.

Definition minDuration : Duration := - 2 ^ 63.
Definition maxDuration : Duration := 2 ^ 63 - 1.


(** [t.Sub(u)]: the difference, saturated to the range of [Duration]. *)
Definition Sub (t u : Time) : Duration :=
  Z.max minDuration (Z.min maxDuration (t - u)).

(** The instant at which the channel of [time.After(d)], created at [now],
    delivers: a non-positive [d] delivers at once. *)
Definition After (now : Time) (d : Duration) : Time := now + Z.max 0 d.

End time.

(** ** Keys and PEM stores ([crypto/ecdsa], [pemutil]) and the file system *)

(** A private key, by identity. *)
Definition PrivateKey : Type := nat.

Module x509.

Record Certificate : Type := mkCertificate {
  Subject : string;
  NotAfter : time.Time
}.

(** A signing request: its subject's common name and the key that signs it. *)
Record CertificateRequest : Type := mkRequest {
  CommonName : string;
  signer : PrivateKey
}.

End x509.

Module tls.

Record Certificate : Type := mkCertificate {
  chain : list string;
  key : PrivateKey
}.

End tls.

Module pemutil.

(** What a PEM file holds, as far as the program looks. *)
Record Store : Type := mkStore {
  ECPrivateKey : option PrivateKey;
  Certificate : option x509.Certificate
}.

Inductive file : Type :=
| PEM (store : Store)
| Unreadable (msg : string).

(** The file system and the key generator: the files by path; the keys
    [GenerateECKeySet] will produce, in order ([None], or an exhausted list,
    is a failure of the generator); the errors of [MkdirAll] and
    [WriteFile], if they are to fail. *)
Record FS : Type := mkFS {
  files : gmap string file;
  keygen : list (option PrivateKey);
  mkdir_err : option error;
  write_err : option error
}.

Definition LoadFile (path : string) (fs : FS) : Store + error :=
  match files fs !! path with
  | None => inr (os_PathError true)
  | Some (PEM store) => inl store
  | Some (Unreadable msg) => inr (errors_New msg)
  end.

Definition GenerateECKeySet (fs : FS) : (Store + error) * FS :=
  (match mjoin (head (keygen fs)) with
   | Some k => inl (mkStore (Some k) None)
   | None => inr (errors_New "could not generate key")
   end,
   mkFS (files fs) (tail (keygen fs)) (mkdir_err fs) (write_err fs)).

Definition WriteFile (store : Store) (path : string) (fs : FS) : option error * FS :=
  match write_err fs with
  | Some err => (Some err, fs)
  | None => (None, mkFS (<[path := PEM store]> (files fs)) (keygen fs)
                        (mkdir_err fs) (write_err fs))
  end.

End pemutil.

Module os.

Definition IsNotExist (err : error) : bool :=
  match err with
  | os_PathError notExist => notExist
  | _ => false
  end.

End os.

(** ** Package [acme] (golang.org/x/crypto/acme): the authority, as an oracle *)

Module acme.

(** The library's constant; nothing below depends on its value. *)
Definition LetsEncryptURL : string := "https://acme-v01.api.letsencrypt.org/directory".
Definition StatusValid : string := "valid".
Definition StatusConflict : Z := 409.

Record Challenge : Type := mkChallenge {
  Type_ : string;
  Token : string
}.

Record Authorization : Type := mkAuthorization {
  URI : string;
  Status : string;
  Challenges : list Challenge
}.

Record Client : Type := mkClient {
  Key : PrivateKey;
  DirectoryURL : string
}.

Record Account : Type := mkAccount { Contact : list string }.

(** What the authority (and, for [DNS01ChallengeRecord], the client
    library) answers to each call; an error is also how a cancelled or
    expired context shows. *)
Record Server : Type := mkServer {
  Register : Client → Account → (string → bool) → option error;
  Authorize : Client → string → Authorization + error;
  DNS01ChallengeRecord : Client → string → string + error;
  Accept : Client → Challenge → option error;
  WaitAuthorization : Client → string → Authorization + error;
  CreateCert : Client → x509.CertificateRequest → (list string * string) + error
}.

End acme.

(** ** Package [autocertdns] ([src/autocertdns.go]) *)

Module autocertdns.

Definition acmeKeyFile : string := "acme_account.key".
Definition acmeChallengDomainPrefix : string := "_acme-challenge.".
Definition keySuffix : string := ".key".
Definition certSuffix : string := ".crt".
Definition LetsEncryptURL : string := acme.LetsEncryptURL.

(** [Provisioner] is the shared interface for providers that can provision
    DNS records: [C] is the provider's client, [B] what it acts on. *)
Class Provisioner (C B : Type) : Type := {
  Provision : C → string → string → string → B → option error * B;
  Unprovision : C → string → string → string → B → option error * B
}.

#[global] Instance godop_Provisioner : Provisioner godop.Client godo.Service :=
  {| Provision := godop.Provision; Unprovision := godop.Unprovision |}.

#[global] Instance gcdnsp_Provisioner : Provisioner gcdnsp.Client gcdnsp.Env :=
  {| Provision := gcdnsp.Provision; Unprovision := gcdnsp.Unprovision |}.

(** [Manager].  A [nil] func or interface is [None] ([Logf] and [Errorf]:
    [false]; their calls are recorded as events); [rw] shows through the
    lock events. *)
Record Manager (C : Type) : Type := mkManager {
  DirectoryURL : string;
  Prompt : option (string → bool);
  CacheDir : string;
  Email : string;
  Domain : string;
  RenewBefore : time.Duration;
  Provisioner_ : option C;
  Logf : bool;
  Errorf : bool;
  cert : option tls.Certificate;
  nextExpiry : time.Time
}.

Arguments mkManager {C}.
Arguments DirectoryURL {C}. Arguments Prompt {C}. Arguments CacheDir {C}.
Arguments Email {C}. Arguments Domain {C}. Arguments RenewBefore {C}.
Arguments Provisioner_ {C}. Arguments Logf {C}. Arguments Errorf {C}.
Arguments cert {C}. Arguments nextExpiry {C}.

(** What an execution does to the outside, in order. *)
Inductive event : Type :=
| EvLock | EvUnlock | EvRLock | EvRUnlock
| EvLogf (format : string) (args : list fmtarg)
| EvErrorf (format : string) (args : list fmtarg)
| EvLoadFile (path : string)
| EvGenerateECKeySet
| EvMkdirAll (path : string)
| EvWriteFile (path : string) (store : pemutil.Store)
| EvRegister (client : acme.Client) (account : acme.Account)
| EvAuthorize (client : acme.Client) (domain : string)
| EvAccept (client : acme.Client) (challenge : acme.Challenge)
| EvWaitAuthorization (client : acme.Client) (uri : string)
| EvCreateCert (client : acme.Client) (csr : x509.CertificateRequest)
| EvCreateCertificateRequest (template_CommonName : string) (priv : PrivateKey)
| EvProvision (typ name token : string) (err : option error)
| EvUnprovision (typ name token : string) (err : option error).

(** Requests to the ACME authority or to the DNS provider. *)
Definition is_network (ev : event) : bool :=
  match ev with
  | EvRegister _ _ | EvAuthorize _ _ | EvAccept _ _ | EvWaitAuthorization _ _
  | EvCreateCert _ _ | EvProvision _ _ _ _ | EvUnprovision _ _ _ _ => true
  | _ => false
  end.

(** Accesses to the file system or the key generator. *)
Definition is_disk (ev : event) : bool :=
  match ev with
  | EvLoadFile _ | EvGenerateECKeySet | EvMkdirAll _ | EvWriteFile _ _ => true
  | _ => false
  end.

(** What is outside the program and immutable during one call. *)
Record Env : Type := mkEnv {
  server : acme.Server;
  csr_err : option error
}.

(** [time.Time{}], the zero instant: 1 January of the year 1, UTC. *)
Definition zeroTime : time.Time := - 62135596800 * 1000000000.

(** The store [pemutil.LoadFile] returns beside an error: [nil], a store
    without entries. *)
Definition nilStore : pemutil.Store := pemutil.mkStore None None.

Section WithProvisioner.

Context {C B : Type} `{!Provisioner C B}.

(** The state a method runs in: the receiver, the file system, and what
    the provisioner acts on. *)
Record World : Type := mkWorld {
  mgr : Manager C;
  fs : pemutil.FS;
  backend : B
}.

(** A statement either falls through with a value or returns from the
    enclosing function with an error. *)
Inductive outcome (A : Type) : Type :=
| Next (a : A)
| Return (err : error).
Arguments Next {A}. Arguments Return {A}.

Definition M (A : Type) : Type := World → outcome A * World * list event.

Definition ret {A} (a : A) : M A := fun w => (Next a, w, []).

Definition bind {A A'} (c : M A) (k : A → M A') : M A' := fun w =>
  match c w with
  | (Next a, w1, evs1) =>
      match k a w1 with (o, w2, evs2) => (o, w2, evs1 ++ evs2) end
  | (Return err, w1, evs1) => (Return err, w1, evs1)
  end.

(** [return err] *)
Definition return_ {A} (err : error) : M A := fun w => (Return err, w, []).

(** [defer d; rest]: [d] runs when the function leaves [rest], however it
    does, and what [d] yields is dropped. *)
Definition deferred {A A'} (d : M A') (rest : M A) : M A := fun w =>
  match rest w with
  | (o, w1, evs1) =>
      match d w1 with (_, w2, evs2) => (o, w2, evs1 ++ evs2) end
  end.

(** A call of a function returning [(value, error)]. *)
Definition call {A} (f : M A) : M (A + error) := fun w =>
  match f w with
  | (Next a, w1, evs) => (Next (inl a), w1, evs)
  | (Return err, w1, evs) => (Next (inr err), w1, evs)
  end.

Definition emit (ev : event) : M unit := fun w => (Next tt, w, [ev]).
Definition receiver : M (Manager C) := fun w => (Next (mgr w), w, []).
Definition on_fs {A} (f : pemutil.FS → A * pemutil.FS) : M A := fun w =>
  match f (fs w) with (a, fs1) => (Next a, mkWorld (mgr w) fs1 (backend w), []) end.
Definition on_backend {A} (f : B → A * B) : M A := fun w =>
  match f (backend w) with (a, b1) => (Next a, mkWorld (mgr w) (fs w) b1, []) end.

Notation "x <- c ;; k" := (bind c (fun x => k))
  (at level 100, c at next level, right associativity).
Notation "c ;; k" := (bind c (fun _ => k))
  (at level 100, right associativity).
Notation "'defer' d ;; k" := (deferred d k)
  (at level 100, d at next level, right associativity).

(** [log] logs [s], [v] via [Manager.Logf]: [m.Logf(s, v...)]. *)
Definition log (s : string) (v : list fmtarg) : M unit :=
  m <- receiver ;;
  if Logf m then emit (EvLogf s v) else ret tt.

(** [errf] creates an error from [s] and [v], reports it to [Errorf] (if
    defined, or [Logf] otherwise) and returns the created error.  The call
    is [m.Errorf(s, v)], without the ellipsis: [Errorf] receives the format
    and one operand, the slice [v]. *)
Definition errf (s : string) (v : list fmtarg) : M error :=
  m <- receiver ;;
  let err := fmt_Errorf s v in
  (if negb (Errorf m) then log "ERROR: %v" [ArgError err]
   else emit (EvErrorf s [ArgSlice v])) ;;
  ret err.

(** [return m.errf(s, v...)] *)
Definition return_errf {A} (s : string) (v : list fmtarg) : M A :=
  err <- errf s v ;; return_ err.

(** [loadOrRenew] *)
Definition loadOrRenew : M unit := ret tt.

(** [cachedKey] retrieves a private key from disk, generating a new key
    if the file is not on disk. *)
Definition cachedKey (filename : string) : M PrivateKey :=
  m <- receiver ;;
  let keyfile := filepath.Join (CacheDir m) filename in
  emit (EvLoadFile keyfile) ;;
  loaded <- on_fs (fun fs => (pemutil.LoadFile keyfile fs, fs)) ;;
  store <-
    match loaded with
    | inr err =>
        if os.IsNotExist err then
          emit EvGenerateECKeySet ;;
          generated <- on_fs pemutil.GenerateECKeySet ;;
          match generated with
          | inr err =>
              return_ (fmt_Errorf "could not generate ec key set: %v" [ArgError err])
          | inl store =>
              emit (EvMkdirAll (CacheDir m)) ;;
              mkdir <- on_fs (fun fs => (pemutil.mkdir_err fs, fs)) ;;
              match mkdir with
              | Some err =>
                  return_ (fmt_Errorf "could not create cache directory: %v"
                                      [ArgError err])
              | None =>
                  emit (EvWriteFile keyfile store) ;;
                  written <- on_fs (pemutil.WriteFile store keyfile) ;;
                  match written with
                  | Some err =>
                      return_ (fmt_Errorf "could not save PEM: %v" [ArgError err])
                  | None => ret store
                  end
              end
          end
        else return_ (fmt_Errorf "unexpected error: %v" [ArgError err])
    | inl store => ret store
    end ;;
  match pemutil.ECPrivateKey store with
  | None =>
      return_ (fmt_Errorf "%s does not contain ec private key" [ArgString keyfile])
  | Some key => ret key
  end.

(** [cachedCert] retrieves the certificate on disk for [domain], and the
    expiry date: what it returns beside the error is the signer ([nil] is
    [None]) and the expiry. *)
Definition cachedCert (domain : string) : M (option PrivateKey * time.Time) :=
  m <- receiver ;;
  let certPath := filepath.Join (CacheDir m) (domain +:+ certSuffix) in
  emit (EvLoadFile certPath) ;;
  loaded <- on_fs (fun fs => (pemutil.LoadFile certPath fs, fs)) ;;
  store <-
    match loaded with
    | inr err => if negb (os.IsNotExist err) then return_ err else ret nilStore
    | inl store => ret store
    end ;;
  match pemutil.Certificate store with
  | None =>
      return_ (fmt_Errorf "%s does not contain a certificate" [ArgString certPath])
  | Some cert =>
      (* extract signer, time *)
      ret (None, zeroTime)
  end.

(** The loop of [renew] that grabs the dns challenge. *)
Fixpoint dns01_challenge (Challenges : list acme.Challenge) : option acme.Challenge :=
  match Challenges with
  | [] => None
  | c :: rest =>
      if String.eqb (acme.Type_ c) "dns-01" then Some c else dns01_challenge rest
  end.

(** Whether the error of [Register] stops [renew]: not when it is [nil],
    nor when it is an [*acme.Error] with status 409. *)
Definition register_failed (err : option error) : option error :=
  match err with
  | None => None
  | Some (acme_Error code) => if code =? acme.StatusConflict then None else err
  | Some _ => err
  end.

(** [renew] renews the certificate. *)
Definition renew (env : Env) : M unit :=
  emit EvLock ;;
  defer emit EvUnlock ;;
  m <- receiver ;;
  if String.eqb (Email m) "" then return_errf "must provide Email" [] else
  match Prompt m with None => return_errf "must provide Prompt" [] | Some prompt =>
  match Provisioner_ m with None => return_errf "must provide Provisioner" [] | Some provisioner =>
  (* load acme key *)
  loaded <- call (cachedKey acmeKeyFile) ;;
  match loaded with
  | inr err => return_errf "could not load %s: %v" [ArgString acmeKeyFile; ArgError err]
  | inl key =>
  (* create acme client *)
  let directoryURL :=
    if String.eqb (DirectoryURL m) "" then LetsEncryptURL else DirectoryURL m in
  let client := acme.mkClient key directoryURL in
  (* register domain *)
  let account := acme.mkAccount ["mailto:" +:+ Email m] in
  emit (EvRegister client account) ;;
  match register_failed (acme.Register (server env) client account prompt) with
  | Some err => return_errf "could not register with ACME server: %v" [ArgError err]
  | None =>
  (* create authorize challenges *)
  emit (EvAuthorize client (Domain m)) ;;
  match acme.Authorize (server env) client (Domain m) with
  | inr err => return_errf "could not authorize with ACME server: %v" [ArgError err]
  | inl authz =>
  (* grab dns challenge *)
  match dns01_challenge (acme.Challenges authz) with
  | None =>
      return_errf "no dns-01 challenge found in challenges provided by the ACME server" []
  | Some challenge =>
  (* exchange dns challenge *)
  match acme.DNS01ChallengeRecord (server env) client (acme.Token challenge) with
  | inr err => return_errf "could not generate token for ACME challenge: %v" [ArgError err]
  | inl tok =>
  (* provision TXT under _acme-challenge.<domain> *)
  let name := acmeChallengDomainPrefix +:+ Domain m in
  err <- on_backend (Provision provisioner "TXT" name tok) ;;
  emit (EvProvision "TXT" name tok err) ;;
  match err with
  | Some err => return_errf "could not provision dns-01 TXT challenge: %v" [ArgError err]
  | None =>
  defer (err <- on_backend (Unprovision provisioner "TXT" name tok) ;;
         emit (EvUnprovision "TXT" name tok err)) ;;
  (* accept challenge *)
  emit (EvAccept client challenge) ;;
  match acme.Accept (server env) client challenge with
  | Some err => return_errf "could not accept ACME challenge: %v" [ArgError err]
  | None =>
  (* wait for authorization *)
  emit (EvWaitAuthorization client (acme.URI authz)) ;;
  match acme.WaitAuthorization (server env) client (acme.URI authz) with
  | inr err =>
      return_errf "unable to wait for authorization from ACME server: %v" [ArgError err]
  | inl authz =>
  if negb (String.eqb (acme.Status authz) acme.StatusValid) then
    return_errf "dns-01 challenge is invalid (has status %v)"
                [ArgString (acme.Status authz)]
  else
  (* grab domain key *)
  loaded <- call (cachedKey (Domain m +:+ keySuffix)) ;;
  match loaded with
  | inr err => return_errf "could not load domain key: %v" [ArgError err]
  | inl certKey =>
  (* create certificate signing request *)
  emit (EvCreateCertificateRequest (Domain m) certKey) ;;
  match csr_err env with
  | Some err =>
      return_errf "could not create certificate signing request: %v" [ArgError err]
  | None =>
  let csr := x509.mkRequest (Domain m) certKey in
  (* create certificate *)
  emit (EvCreateCert client csr) ;;
  match acme.CreateCert (server env) client csr with
  | inr err => return_errf "could not create certificate: %v" [ArgError err]
  | inl (der, urlstr) =>
  log "created certificate: %s" [ArgString urlstr] ;;
  ret tt
  end end end end end end end end end end end end end.

(** [afterRenew]: the duration given to [time.After], at instant [now]. *)
Definition afterRenew (now : time.Time) : M time.Duration :=
  emit EvRLock ;;
  m <- receiver ;;
  let exp := nextExpiry m in
  emit EvRUnlock ;;
  ret (time.Sub exp now).

(** [GetCertificate] returns the current certificate, and the error. *)
Definition GetCertificate : M (option tls.Certificate * option error) :=
  emit EvRLock ;;
  defer emit EvRUnlock ;;
  m <- receiver ;;
  ret (cert m, None).

(** The error a function of type [func(...) error] returns. *)
Definition returned (o : outcome unit) : option error :=
  match o with Next _ => None | Return err => Some err end.

End WithProvisioner.

Arguments World : clear implicits.
Arguments mkWorld {C B}.
Arguments Next {A}. Arguments Return {A}.

(** [AcceptTOS] always returns true. *)
Definition AcceptTOS (_ : string) : bool := true.

End autocertdns.

(** ** Command [autogcdns] ([cmd/autogcdns/main.go]) *)

Module autogcdns.

(** [dns.ManagedZone], as far as the command looks. *)
Record ManagedZone : Type := mkZone {
  Name : string;
  DnsName : string
}.

(** One round of the loop of [loadZone] over the managed zones: [zone] is
    the zone kept so far, [z] the zone at hand. *)
Definition longer (flagDomain : string) (zone z : ManagedZone) : ManagedZone :=
  if strings.HasSuffix flagDomain (DnsName zone)
     && (String.length (DnsName zone) <? String.length (DnsName z))%nat
  then z else zone.

(** [loadZone] determines the managed zone for the domain of the [-d] flag;
    [listed] is what listing the managed zones of the project
    ([dnsService.ManagedZones.List]) returns. *)
Definition loadZone (flagProject flagDomain : string)
    (listed : list ManagedZone + error) : string + error :=
  match listed with
  | inr err => inr err
  | inl ManagedZones =>
      match ManagedZones with
      | [] => inr (fmt_Errorf "no managed zones in project %q" [ArgString flagProject])
      | first :: _ =>
          (* find the managed zone with the longest dns name matching the
             domain flag *)
          let zone := foldl (longer flagDomain) first ManagedZones in
          if negb (strings.HasSuffix flagDomain (DnsName zone)) then
            inr (fmt_Errorf
                   "can not find the managed zone name in project %q for domain %q"
                   [ArgString flagProject; ArgString flagDomain])
          else inl (Name zone)
      end
  end.

End autogcdns.

(** * Vocabulary of the properties *)

(** A request the provisioners refuse: a record type other than TXT, a name
    that does not end in ["." + domain], or nothing before that suffix. *)
Definition rejected_request (domain typ name : string) : Prop :=
  typ ≠ "TXT" ∨ (∀ p, name ≠ p +:+ "." +:+ domain) ∨ name = "." +:+ domain.

(** The record [Unprovision] looks for. *)
Definition godop_match (p token : string) (r : godo.DomainRecord) : bool :=
  String.eqb (godo.Name r) p && String.eqb (godo.Type_ r) "TXT"
  && String.eqb (godo.Data r) token.


(** The record sets [Unprovision] looks for. *)
Definition gcdnsp_match (name token : string) (r : dns.ResourceRecordSet) : bool :=
  String.eqb (dns.Name r) name && String.eqb (dns.Type_ r) "TXT"
  && gcdnsp.contains (dns.Rrdatas r) token.


(** ** Concrete inputs *)

(** The name renew asks to provision for the domain [example.test]. *)
Definition scenario_fqdn : string := "_acme-challenge.example.test".

(** A string between double quotes, as nameservers and the Cloud DNS API
    return TXT data. *)
Definition quoted (s : string) : string :=
  String "034"%char (s +:+ String "034"%char EmptyString).

(** A DigitalOcean account with the domain [zone], holding [rs]. *)
Definition ocean_of (zone : string) (rs : list godo.DomainRecord) : godo.Service :=
  godo.mkService {[ zone := rs ]} 1 [] [].

Definition ocean : list godo.DomainRecord → godo.Service := ocean_of "test".

(** A Cloud DNS project with one managed zone holding [rs]; its nameservers
    fail the first query and answer the second with the quoted token. *)
Definition cloud (rs : list dns.ResourceRecordSet) : gcdnsp.Env :=
  gcdnsp.mkEnv
    (dns.mkService {[ ("project", "zone") := rs ]} 99 [] [])
    (fun _ _ => [dnsr.ExchangeError; dnsr.Reply [dnsr.OtherRR; dnsr.TXT [quoted "tok"]]])
    context_DeadlineExceeded [].

Definition cloud_client (domain : string) : gcdnsp.Client :=
  gcdnsp.mkClient "project" "zone" domain ["ns1:53"; "ns2:53"].

(** ** Events of the manager *)

(** What [errf] writes: to [Errorf] when it is set (the format and, as one
    operand, the slice of the arguments), else to [Logf] when that is set,
    else nothing. *)
Definition errf_events {C} (m : autocertdns.Manager C) (s : string) (v : list fmtarg)
    : list autocertdns.event :=
  if autocertdns.Errorf m then [autocertdns.EvErrorf s [ArgSlice v]]
  else if autocertdns.Logf m
       then [autocertdns.EvLogf "ERROR: %v" [ArgError (fmt_Errorf s v)]]
       else [].

(** What [log] writes. *)
Definition log_events {C} (m : autocertdns.Manager C) (s : string) (v : list fmtarg)
    : list autocertdns.event :=
  if autocertdns.Logf m then [autocertdns.EvLogf s v] else [].

(** Calls of the logging callbacks. *)
Definition is_log (ev : autocertdns.event) : bool :=
  match ev with
  | autocertdns.EvLogf _ _ | autocertdns.EvErrorf _ _ => true
  | _ => false
  end.

(** The steps of an execution that matter to the protocol: everything but
    file accesses and log lines. *)
Definition is_step (ev : autocertdns.event) : bool :=
  negb (autocertdns.is_disk ev) && negb (is_log ev).

Definition steps (evs : list autocertdns.event) : list autocertdns.event :=
  List.filter is_step evs.

(** The name of the challenge record of a manager's domain. *)
Definition challenge_name {C} (m : autocertdns.Manager C) : string :=
  autocertdns.acmeChallengDomainPrefix +:+ autocertdns.Domain m.

(** The protocol of [renew]: the outcomes of an execution and, for each, the
    steps it took, in order.  Every execution takes the writer lock first and
    releases it last; once the challenge record is provisioned, every way out
    goes through [Unprovision]. *)
Inductive protocol {C} (m : autocertdns.Manager C)
    : autocertdns.outcome unit → list autocertdns.event → Prop :=
| renew_refused err :
    protocol m (autocertdns.Return err)
      [autocertdns.EvLock; autocertdns.EvUnlock]
| renew_unregistered client account err :
    protocol m (autocertdns.Return err)
      [autocertdns.EvLock;
       autocertdns.EvRegister client account;
       autocertdns.EvUnlock]
| renew_unauthorized client account err :
    protocol m (autocertdns.Return err)
      [autocertdns.EvLock;
       autocertdns.EvRegister client account;
       autocertdns.EvAuthorize client (autocertdns.Domain m);
       autocertdns.EvUnlock]
| renew_unprovisioned client account tok perr err :
    protocol m (autocertdns.Return err)
      [autocertdns.EvLock;
       autocertdns.EvRegister client account;
       autocertdns.EvAuthorize client (autocertdns.Domain m);
       autocertdns.EvProvision "TXT" (challenge_name m) tok (Some perr);
       autocertdns.EvUnlock]
| renew_unaccepted client account tok challenge uerr err :
    protocol m (autocertdns.Return err)
      [autocertdns.EvLock;
       autocertdns.EvRegister client account;
       autocertdns.EvAuthorize client (autocertdns.Domain m);
       autocertdns.EvProvision "TXT" (challenge_name m) tok None;
       autocertdns.EvAccept client challenge;
       autocertdns.EvUnprovision "TXT" (challenge_name m) tok uerr;
       autocertdns.EvUnlock]
| renew_invalid client account tok challenge uri uerr err :
    protocol m (autocertdns.Return err)
      [autocertdns.EvLock;
       autocertdns.EvRegister client account;
       autocertdns.EvAuthorize client (autocertdns.Domain m);
       autocertdns.EvProvision "TXT" (challenge_name m) tok None;
       autocertdns.EvAccept client challenge;
       autocertdns.EvWaitAuthorization client uri;
       autocertdns.EvUnprovision "TXT" (challenge_name m) tok uerr;
       autocertdns.EvUnlock]
| renew_unsigned client account tok challenge uri certKey uerr err :
    protocol m (autocertdns.Return err)
      [autocertdns.EvLock;
       autocertdns.EvRegister client account;
       autocertdns.EvAuthorize client (autocertdns.Domain m);
       autocertdns.EvProvision "TXT" (challenge_name m) tok None;
       autocertdns.EvAccept client challenge;
       autocertdns.EvWaitAuthorization client uri;
       autocertdns.EvCreateCertificateRequest (autocertdns.Domain m) certKey;
       autocertdns.EvUnprovision "TXT" (challenge_name m) tok uerr;
       autocertdns.EvUnlock]
| renew_requested client account tok challenge uri certKey uerr o :
    protocol m o
      [autocertdns.EvLock;
       autocertdns.EvRegister client account;
       autocertdns.EvAuthorize client (autocertdns.Domain m);
       autocertdns.EvProvision "TXT" (challenge_name m) tok None;
       autocertdns.EvAccept client challenge;
       autocertdns.EvWaitAuthorization client uri;
       autocertdns.EvCreateCertificateRequest (autocertdns.Domain m) certKey;
       autocertdns.EvCreateCert client (x509.mkRequest (autocertdns.Domain m) certKey);
       autocertdns.EvUnprovision "TXT" (challenge_name m) tok uerr;
       autocertdns.EvUnlock].

Definition is_unprovision (ev : autocertdns.event) : bool :=
  match ev with autocertdns.EvUnprovision _ _ _ _ => true | _ => false end.

(** An authority that offers an http-01 and a dns-01 challenge and grants
    everything. *)
Definition authority : acme.Server :=
  acme.mkServer
    (fun _ _ _ => None)
    (fun _ domain =>
       inl (acme.mkAuthorization ("https://ca.test/authz/" +:+ domain) "pending"
              [acme.mkChallenge "http-01" "t0"; acme.mkChallenge "dns-01" "t1"]))
    (fun _ token => inl ("digest-" +:+ token))
    (fun _ _ => None)
    (fun _ uri => inl (acme.mkAuthorization uri "valid" []))
    (fun _ _ => inl (["der"], "https://ca.test/cert/1")).


(** A manager for [domain] with the [godop] provisioner of the domain [zone],
    no certificate yet, logging through [Logf]. *)
Definition manager_of (domain zone : string) : autocertdns.Manager godop.Client :=
  autocertdns.mkManager "" (Some autocertdns.AcceptTOS) "cache" "admin@example.test"
    domain 0 (Some (godop.New zone)) true false None 0.

(** An empty cache directory, a key generator that will produce the keys 1
    and 2, and a DigitalOcean account with the domain [zone]. *)
Definition fresh_world_of (domain zone : string)
    : autocertdns.World godop.Client godo.Service :=
  autocertdns.mkWorld (manager_of domain zone)
    (pemutil.mkFS ∅ [Some 1%nat; Some 2%nat] None None) (ocean_of zone []).

Definition fresh_world (domain : string) : autocertdns.World godop.Client godo.Service :=
  fresh_world_of domain "test".

(** The receiver with other values in some fields. *)
Definition with_Email {C} (email : string) (m : autocertdns.Manager C)
    : autocertdns.Manager C :=
  autocertdns.mkManager (autocertdns.DirectoryURL m) (autocertdns.Prompt m)
    (autocertdns.CacheDir m) email (autocertdns.Domain m) (autocertdns.RenewBefore m)
    (autocertdns.Provisioner_ m) (autocertdns.Logf m) (autocertdns.Errorf m)
    (autocertdns.cert m) (autocertdns.nextExpiry m).

Definition with_schedule {C} (RenewBefore : time.Duration) (nextExpiry : time.Time)
    (m : autocertdns.Manager C) : autocertdns.Manager C :=
  autocertdns.mkManager (autocertdns.DirectoryURL m) (autocertdns.Prompt m)
    (autocertdns.CacheDir m) (autocertdns.Email m) (autocertdns.Domain m) RenewBefore
    (autocertdns.Provisioner_ m) (autocertdns.Logf m) (autocertdns.Errorf m)
    (autocertdns.cert m) nextExpiry.

Definition with_mgr {C B} (m : autocertdns.Manager C) (w : autocertdns.World C B)
    : autocertdns.World C B :=
  autocertdns.mkWorld m (autocertdns.fs w) (autocertdns.backend w).

(** ** The renewal timer, as specified *)




(** Events that are neither requests over the network nor file accesses. *)
Definition is_local (ev : autocertdns.event) : bool :=
  negb (autocertdns.is_network ev) && negb (autocertdns.is_disk ev).


Definition is_write (ev : autocertdns.event) : bool :=
  match ev with autocertdns.EvWriteFile _ _ => true | _ => false end.

(** ** File names *)

(** Whether a string holds a path separator. *)
Fixpoint has_sep (s : string) : bool :=
  match s with
  | EmptyString => false
  | String c rest => filepath.is_sep c || has_sep rest
  end.

(** A file name proper: one path element, and not one that [Clean] drops or
    resolves. *)
Definition file_name (f : string) : Prop :=
  has_sep f = false ∧ f ≠ "" ∧ f ≠ "." ∧ f ≠ "..".

(** ** Key files *)

Definition account_key_file {C} (m : autocertdns.Manager C) : string :=
  filepath.Join (autocertdns.CacheDir m) autocertdns.acmeKeyFile.

Definition domain_key_file {C} (m : autocertdns.Manager C) : string :=
  filepath.Join (autocertdns.CacheDir m) (autocertdns.Domain m +:+ autocertdns.keySuffix).

(** The file at [path] is a PEM file with the private key [k]. *)
Definition holds_key (fs : pemutil.FS) (path : string) (k : PrivateKey) : Prop :=
  ∃ store, pemutil.files fs !! path = Some (pemutil.PEM store) ∧
           pemutil.ECPrivateKey store = Some k.





(** ** Locks and files *)

(** Operations on the manager's read-write lock. *)
Definition is_lock (ev : autocertdns.event) : bool :=
  match ev with
  | autocertdns.EvLock | autocertdns.EvUnlock
  | autocertdns.EvRLock | autocertdns.EvRUnlock => true
  | _ => false
  end.

(** From [fs] to [fs'] no file has changed, or the one file [path], absent
    before, has been created as a PEM file holding a key and nothing else. *)
Definition may_create (path : string) (fs fs' : pemutil.FS) : Prop :=
  pemutil.files fs' = pemutil.files fs ∨
  ∃ k, pemutil.files fs !! path = None ∧
       pemutil.files fs'
       = <[path := pemutil.PEM (pemutil.mkStore (Some k) None)]> (pemutil.files fs).
(** * Properties *)

(** ** Byte strings *)

Section StringFacts.

Local Open Scope nat_scope.

Lemma str_app_cons (a : ascii) (s t : string) : String a s +:+ t = String a (s +:+ t).
Proof. reflexivity. Qed.

Lemma str_app_empty_l (s : string) : "" +:+ s = s.
Proof. reflexivity. Qed.

Lemma str_app_empty_r (s : string) : s +:+ "" = s.
Proof. induction s as [|a s IH]; [done|]. by rewrite str_app_cons, IH. Qed.

Lemma str_app_assoc (s t u : string) : (s +:+ t) +:+ u = s +:+ (t +:+ u).
Proof. induction s as [|a s IH]; [done|]. by rewrite !str_app_cons, IH. Qed.

Lemma str_length_app (s t : string) :
  String.length (s +:+ t) = String.length s + String.length t.
Proof. induction s as [|a s IH]; [done|]. rewrite str_app_cons. simpl. by rewrite IH. Qed.

Lemma substring_0_0 (s : string) : String.substring 0 0 s = "".
Proof. by destruct s. Qed.

Lemma substring_all (s : string) : String.substring 0 (String.length s) s = s.
Proof. induction s as [|a s IH]; [done|]. simpl. by rewrite IH. Qed.

Lemma substring_prefix (p q : string) :
  String.substring 0 (String.length p) (p +:+ q) = p.
Proof.
  induction p as [|a p IH]; [apply substring_0_0|].
  rewrite str_app_cons. simpl. by rewrite IH.
Qed.

Lemma substring_suffix (p q : string) :
  String.substring (String.length p) (String.length q) (p +:+ q) = q.
Proof.
  induction p as [|a p IH]; [apply substring_all|].
  rewrite str_app_cons. simpl. exact IH.
Qed.

Lemma substring_split (n : nat) (s : string) :
  n ≤ String.length s →
  String.substring 0 n s +:+ String.substring n (String.length s - n) s = s.
Proof.
  revert s. induction n as [|n IH]; intros s Hn.
  - rewrite substring_0_0, Nat.sub_0_r, substring_all. done.
  - destruct s as [|a s]; simpl in *; [lia|].
    rewrite str_app_cons, IH by lia. done.
Qed.

Lemma str_app_inv_tail (p p' s : string) : p +:+ s = p' +:+ s → p = p'.
Proof.
  revert p'. induction p as [|a p IH]; intros [|a' p'] H.
  - done.
  - apply (f_equal String.length) in H.
    rewrite str_app_empty_l, str_app_cons in H. simpl in H. rewrite str_length_app in H. lia.
  - apply (f_equal String.length) in H.
    rewrite str_app_empty_l, str_app_cons in H. simpl in H. rewrite str_length_app in H. lia.
  - rewrite !str_app_cons in H. injection H as -> H. f_equal. by apply IH.
Qed.

(** [HasSuffix] holds exactly of the strings that end with the suffix. *)
Lemma HasSuffix_app (p suffix : string) : strings.HasSuffix (p +:+ suffix) suffix = true.
Proof.
  unfold strings.HasSuffix, strings.slice. rewrite str_length_app.
  apply andb_true_intro. split; [apply Nat.leb_le; lia|].
  replace (String.length p + String.length suffix - String.length suffix)
    with (String.length p) by lia.
  replace (String.length p + String.length suffix - String.length p)
    with (String.length suffix) by lia.
  rewrite substring_suffix. apply String.eqb_refl.
Qed.

Lemma HasSuffix_inv (s suffix : string) :
  strings.HasSuffix s suffix = true →
  s = strings.slice s 0 (String.length s - String.length suffix) +:+ suffix.
Proof.
  unfold strings.HasSuffix, strings.slice. intros [Hle Heq]%andb_prop.
  apply Nat.leb_le in Hle. apply String.eqb_eq in Heq.
  rewrite Nat.sub_0_r.
  rewrite <- (substring_split (String.length s - String.length suffix) s) at 1 by lia.
  f_equal. rewrite <- Heq at 3. f_equal; lia.
Qed.

Lemma HasSuffix_iff (s suffix : string) :
  strings.HasSuffix s suffix = true ↔ ∃ p, s = p +:+ suffix.
Proof.
  split.
  - intros H. eexists. by apply HasSuffix_inv.
  - intros [p ->]. apply HasSuffix_app.
Qed.

Lemma slice_app (p suffix : string) :
  strings.slice (p +:+ suffix) 0 (String.length (p +:+ suffix) - String.length suffix) = p.
Proof.
  unfold strings.slice. rewrite str_length_app, Nat.sub_0_r.
  replace (String.length p + String.length suffix - String.length suffix)
    with (String.length p) by lia.
  apply substring_prefix.
Qed.

Lemma TrimSuffix_app (p suffix : string) : strings.TrimSuffix (p +:+ suffix) suffix = p.
Proof. unfold strings.TrimSuffix. rewrite HasSuffix_app. apply slice_app. Qed.

(** The name [godop] keeps, [name[:len(name)-len(domain)-1]], is the part of
    the name before ["." + domain]. *)
Lemma slice_zone (p domain : string) :
  strings.slice (p +:+ "." +:+ domain) 0
    (String.length (p +:+ "." +:+ domain) - String.length domain - 1) = p.
Proof.
  pose proof (slice_app p ("." +:+ domain)) as H.
  rewrite <- H at 3. f_equal. rewrite !str_length_app. simpl. lia.
Qed.

Lemma HasSuffix_bare_zone (domain : string) :
  strings.HasSuffix ("." +:+ domain) ("." +:+ domain) = true.
Proof. exact (HasSuffix_app "" ("." +:+ domain)). Qed.

Lemma TrimSuffix_bare_zone (domain : string) :
  strings.TrimSuffix ("." +:+ domain) ("." +:+ domain) = "".
Proof. exact (TrimSuffix_app "" ("." +:+ domain)). Qed.

Lemma slice_bare_zone (domain : string) :
  strings.slice ("." +:+ domain) 0
    (String.length ("." +:+ domain) - String.length domain - 1) = "".
Proof. exact (slice_zone "" domain). Qed.

End StringFacts.

(** ** The provisioners: validation of a request *)


Section Validation.

Variables domain name : string.

Lemma no_suffix_HasSuffix :
  (∀ p, name ≠ p +:+ "." +:+ domain) → strings.HasSuffix name ("." +:+ domain) = false.
Proof.
  intros H. destruct (strings.HasSuffix name ("." +:+ domain)) eqn:E; [|done].
  apply HasSuffix_iff in E as [p ->]. by destruct (H p).
Qed.

Lemma HasSuffix_zone p : name = p +:+ "." +:+ domain →
  strings.HasSuffix name ("." +:+ domain) = true.
Proof. intros ->. apply HasSuffix_app. Qed.

Lemma TrimSuffix_zone p : name = p +:+ "." +:+ domain →
  strings.TrimSuffix name ("." +:+ domain) = p.
Proof. intros ->. apply TrimSuffix_app. Qed.

(** Every name is below the domain, the bare suffix, or outside of it. *)
Lemma name_cases :
  (∃ p, p ≠ "" ∧ name = p +:+ "." +:+ domain) ∨
  name = "." +:+ domain ∨
  (∀ p, name ≠ p +:+ "." +:+ domain).
Proof.
  destruct (strings.HasSuffix name ("." +:+ domain)) eqn:E.
  - apply HasSuffix_iff in E as [p ->].
    destruct (decide (p = "")) as [->|Hp]; [by right; left|].
    left. by exists p.
  - right. right. intros p ->. by rewrite HasSuffix_app in E.
Qed.

End Validation.

Lemma eqb_TXT (typ : string) : typ ≠ "TXT" → String.eqb typ "TXT" = false.
Proof. intros H. by apply String.eqb_neq. Qed.

Lemma eqb_empty (p : string) : p ≠ "" → String.eqb p "" = false.
Proof. intros H. by apply String.eqb_neq. Qed.

(** *** [godop] *)

Lemma godop_rejects (c : godop.Client) (typ name token : string) (s : godo.Service) :
  rejected_request (godop.domain c) typ name →
  (∃ err, godop.Provision c typ name token s = (Some err, s)) ∧
  (∃ err, godop.Unprovision c typ name token s = (Some err, s)).
Proof.
  unfold godop.Provision, godop.Unprovision.
  intros [Htyp|[Hsuf|Hname]].
  - rewrite (eqb_TXT _ Htyp). simpl. eauto.
  - destruct (String.eqb typ "TXT"); simpl; [|by eauto].
    rewrite (no_suffix_HasSuffix _ _ Hsuf). simpl. eauto.
  - destruct (String.eqb typ "TXT"); simpl; [|by eauto].
    subst name. rewrite HasSuffix_bare_zone. simpl.
    rewrite slice_bare_zone. simpl. eauto.
Qed.

Lemma godop_Provision_below (c : godop.Client) (p token : string) (s : godo.Service) :
  p ≠ "" →
  godop.Provision c "TXT" (p +:+ "." +:+ godop.domain c) token s
  = godo.CreateRecord (godop.domain c) (godo.mkEdit "TXT" p token) s.
Proof.
  intros Hp. unfold godop.Provision. simpl.
  rewrite HasSuffix_app, slice_zone, (eqb_empty _ Hp). simpl.
  by destruct (godo.CreateRecord _ _ _) as [[err|] s1].
Qed.

Lemma godop_Provision_mismatch (c : godop.Client) (name token : string) (s : godo.Service) :
  (∀ p, name ≠ p +:+ "." +:+ godop.domain c) →
  godop.Provision c "TXT" name token s = (Some (errors_New "invalid domain"), s).
Proof.
  intros H. unfold godop.Provision. simpl. by rewrite (no_suffix_HasSuffix _ _ H).
Qed.

Lemma godop_Provision_accepts (c : godop.Client) (typ name token : string)
    (s s' : godo.Service) :
  godop.Provision c typ name token s = (None, s') →
  typ = "TXT" ∧ ∃ p, p ≠ "" ∧ name = p +:+ "." +:+ godop.domain c.
Proof.
  intros H. destruct (decide (typ = "TXT")) as [->|Htyp].
  - split; [done|].
    destruct (name_cases (godop.domain c) name) as [?|[Hn|Hn]]; [done|..].
    + destruct (godop_rejects c "TXT" name token s) as [[err He] _]; [by right; right|].
      congruence.
    + rewrite godop_Provision_mismatch in H by done. congruence.
  - destruct (godop_rejects c typ name token s) as [[err He] _]; [by left|]. congruence.
Qed.


Lemma godop_match_spec (p token : string) (r : godo.DomainRecord) :
  godop_match p token r = true ↔
  godo.Name r = p ∧ godo.Type_ r = "TXT" ∧ godo.Data r = token.
Proof.
  unfold godop_match. rewrite !andb_true_iff, !String.eqb_eq. tauto.
Qed.

(** The loop deletes the first matching record of the listing, by its id. *)
Lemma delete_first_match_find (c : godop.Client) (p token : string)
    (records : list godo.DomainRecord) (s : godo.Service) :
  godop.delete_first_match c p token records s =
  match List.find (godop_match p token) records with
  | None => (Some (errors_New "record not deleted"), s)
  | Some r => godo.DeleteRecord (godop.domain c) (godo.ID r) s
  end.
Proof.
  induction records as [|r rest IH]; [done|]. simpl. unfold godop_match at 1.
  destruct (String.eqb (godo.Name r) p); simpl; [|exact IH].
  destruct (String.eqb (godo.Type_ r) "TXT"); simpl; [|exact IH].
  destruct (String.eqb (godo.Data r) token); simpl; [|exact IH].
  by destruct (godo.DeleteRecord _ _ _) as [[err|] s1].
Qed.

Lemma godop_Unprovision_below (c : godop.Client) (p token : string) (s : godo.Service) :
  p ≠ "" →
  godop.Unprovision c "TXT" (p +:+ "." +:+ godop.domain c) token s =
  match godo.Records (godop.domain c) s with
  | (_, Some err, s1) => (Some err, s1)
  | (records, None, s1) =>
      match List.find (godop_match p token) records with
      | None => (Some (errors_New "record not deleted"), s1)
      | Some r => godo.DeleteRecord (godop.domain c) (godo.ID r) s1
      end
  end.
Proof.
  intros Hp. unfold godop.Unprovision. simpl.
  rewrite HasSuffix_app, slice_zone, (eqb_empty _ Hp). simpl.
  destruct (godo.Records _ _) as [[records [err|]] s1]; [done|].
  apply delete_first_match_find.
Qed.

(** *** [gcdnsp] *)

Lemma gcdnsp_rejects (c : gcdnsp.Client) (typ name token : string) (e : gcdnsp.Env) :
  rejected_request (gcdnsp.domain c) typ name →
  (∃ err, gcdnsp.Provision c typ name token e = (Some err, e)) ∧
  (∃ err, gcdnsp.Unprovision c typ name token e = (Some err, e)).
Proof.
  unfold gcdnsp.Provision, gcdnsp.Unprovision, gcdnsp.allowedRecordType.
  intros [Htyp|[Hsuf|Hname]].
  - rewrite (eqb_TXT _ Htyp). simpl. eauto.
  - destruct (String.eqb typ "TXT"); simpl; [|by eauto].
    rewrite (no_suffix_HasSuffix _ _ Hsuf). simpl. eauto.
  - destruct (String.eqb typ "TXT"); simpl; [|by eauto].
    subst name. rewrite HasSuffix_bare_zone, TrimSuffix_bare_zone. simpl. eauto.
Qed.

Lemma gcdnsp_Provision_mismatch (c : gcdnsp.Client) (name token : string) (e : gcdnsp.Env) :
  (∀ p, name ≠ p +:+ "." +:+ gcdnsp.domain c) →
  gcdnsp.Provision c "TXT" name token e = (Some (errors_New "invalid domain"), e).
Proof.
  intros H. unfold gcdnsp.Provision. simpl. by rewrite (no_suffix_HasSuffix _ _ H).
Qed.

Lemma gcdnsp_Provision_accepts (c : gcdnsp.Client) (typ name token : string)
    (e e' : gcdnsp.Env) :
  gcdnsp.Provision c typ name token e = (None, e') →
  typ = "TXT" ∧ ∃ p, p ≠ "" ∧ name = p +:+ "." +:+ gcdnsp.domain c.
Proof.
  intros H. destruct (decide (typ = "TXT")) as [->|Htyp].
  - split; [done|].
    destruct (name_cases (gcdnsp.domain c) name) as [?|[Hn|Hn]]; [done|..].
    + destruct (gcdnsp_rejects c "TXT" name token e) as [[err He] _]; [by right; right|].
      congruence.
    + rewrite gcdnsp_Provision_mismatch in H by done. congruence.
  - destruct (gcdnsp_rejects c typ name token e) as [[err He] _]; [by left|]. congruence.
Qed.





Lemma contains_spec (haystack : list string) (needle : string) :
  gcdnsp.contains haystack needle = true ↔
  ∃ s, s ∈ haystack ∧ strings.TrimFunc s gcdnsp.is_quote = needle.
Proof.
  induction haystack as [|s rest IH]; simpl.
  - split; [done|]. intros (s & Hs & _). by apply elem_of_nil in Hs.
  - destruct (String.eqb needle _) eqn:E.
    + apply String.eqb_eq in E. split; [|done]. intros _. exists s. split; [left|done].
    + apply String.eqb_neq in E. rewrite IH. split.
      * intros (s' & Hs' & Ht). exists s'. split; [by right|done].
      * intros (s' & Hs' & Ht). apply elem_of_cons in Hs' as [->|Hs']; [congruence|].
        by exists s'.
Qed.

Lemma gcdnsp_match_spec (name token : string) (r : dns.ResourceRecordSet) :
  gcdnsp_match name token r = true ↔
  dns.Name r = name ∧ dns.Type_ r = "TXT" ∧
  ∃ s, s ∈ dns.Rrdatas r ∧ strings.TrimFunc s gcdnsp.is_quote = token.
Proof.
  unfold gcdnsp_match. rewrite !andb_true_iff, !String.eqb_eq, contains_spec. tauto.
Qed.

Lemma collect_filter (name token : string) (page deletions : list dns.ResourceRecordSet) :
  gcdnsp.collect name token page deletions
  = deletions ++ List.filter (gcdnsp_match name token) page.
Proof.
  revert deletions. induction page as [|r rest IH]; intros deletions; simpl.
  - by rewrite app_nil_r.
  - unfold gcdnsp_match at 1, gcdnsp.allowedRecordType.
    destruct (String.eqb (dns.Name r) name); simpl; [|apply IH].
    destruct (String.eqb (dns.Type_ r) "TXT"); simpl; [|apply IH].
    destruct (gcdnsp.contains (dns.Rrdatas r) token); simpl; [|apply IH].
    rewrite IH. by rewrite <- app_assoc.
Qed.

Lemma collect_pages (name token : string) (pages : list (list dns.ResourceRecordSet))
    (deletions : list dns.ResourceRecordSet) :
  foldl (fun ds page => gcdnsp.collect name token page ds) deletions pages
  = deletions ++ List.filter (gcdnsp_match name token) (concat pages).
Proof.
  revert deletions. induction pages as [|page rest IH]; intros deletions; simpl.
  - by rewrite app_nil_r.
  - rewrite IH, collect_filter, List.filter_app. by rewrite <- app_assoc.
Qed.

Lemma concat_paginate {A} (fuel n : nat) (l : list A) :
  (length l ≤ fuel)%nat → concat (dns.paginate fuel n l) = l.
Proof.
  revert l. induction fuel as [|fuel IH]; intros l Hl.
  - destruct l; simpl in *; [done|lia].
  - destruct l as [|a l]; [done|].
    change (dns.paginate (S fuel) n (a :: l))
      with (take (S n) (a :: l) :: dns.paginate fuel n (drop (S n) (a :: l))).
    simpl concat. rewrite IH.
    + simpl. f_equal. apply take_drop.
    + simpl in *. rewrite length_drop. lia.
Qed.

(** What [Pages] delivers, when it succeeds, is the zone's record sets. *)
Lemma ResourceRecordSetsList_pages (project zone : string) (s s1 : dns.Service)
    (pages : list (list dns.ResourceRecordSet)) :
  dns.ResourceRecordSetsList project zone s = (pages, None, s1) →
  dns.zones s1 = dns.zones s ∧ dns.zones s !! (project, zone) = Some (concat pages).
Proof.
  unfold dns.ResourceRecordSetsList, dns.receive.
  destruct (mjoin (head (dns.faults s))); [done|]. simpl.
  destruct (dns.zones s !! (project, zone)) as [rs|] eqn:E; [|done].
  intros [= <- <-]. split; [done|]. by rewrite concat_paginate.
Qed.

(** *** What the services do to their zones *)

Lemma godo_Records_spec (domain : string) (s s1 : godo.Service)
    (records : list godo.DomainRecord) (err : option error) :
  godo.Records domain s = (records, err, s1) →
  godo.zones s1 = godo.zones s ∧
  (err = None → godo.zones s !! domain = Some records).
Proof.
  unfold godo.Records, godo.receive.
  destruct (mjoin (head (godo.faults s))); simpl; [by intros [= <- <- <-]|].
  destruct (godo.zones s !! domain) as [rs|] eqn:E; intros [= <- <- <-]; done.
Qed.

Lemma godo_DeleteRecord_spec (domain : string) (id : Z) (s s1 : godo.Service)
    (err : option error) :
  godo.DeleteRecord domain id s = (err, s1) →
  (err ≠ None ∧ godo.zones s1 = godo.zones s) ∨
  (∃ rs, err = None ∧ godo.zones s !! domain = Some rs ∧
         godo.zones s1 = <[domain := godo.remove_id id rs]> (godo.zones s)).
Proof.
  unfold godo.DeleteRecord, godo.receive.
  destruct (mjoin (head (godo.faults s))); simpl; [intros [= <- <-]; by left|].
  destruct (godo.zones s !! domain) as [rs|] eqn:E; intros [= <- <-].
  - right. by exists rs.
  - by left.
Qed.

Lemma dns_ChangesCreate_spec (project zone : string) (ch : dns.Change)
    (s s1 : dns.Service) (err : option error) :
  dns.ChangesCreate project zone ch s = (err, s1) →
  (err ≠ None ∧ dns.zones s1 = dns.zones s) ∨
  (∃ rs, err = None ∧ dns.zones s !! (project, zone) = Some rs ∧
         dns.zones s1 = <[(project, zone) := dns.apply_change ch rs]> (dns.zones s)).
Proof.
  unfold dns.ChangesCreate, dns.receive.
  destruct (mjoin (head (dns.faults s))); simpl; [intros [= <- <-]; by left|].
  destruct (dns.zones s !! (project, zone)) as [rs|] eqn:E; intros [= <- <-].
  - right. by exists rs.
  - by left.
Qed.




(** *** [Unprovision]: what is removed, and what is reported *)

Lemma godop_Unprovision_effect (c : godop.Client) (typ name token : string)
    (s s' : godo.Service) (err : option error) :
  godop.Unprovision c typ name token s = (err, s') →
  godo.zones s' = godo.zones s ∨
  ∃ p rs r,
    name = p +:+ "." +:+ godop.domain c ∧ err = None ∧
    godo.zones s !! godop.domain c = Some rs ∧ r ∈ rs ∧
    godo.Name r = p ∧ godo.Type_ r = "TXT" ∧ godo.Data r = token ∧
    godo.zones s' = <[godop.domain c := godo.remove_id (godo.ID r) rs]> (godo.zones s).
Proof.
  intros H.
  destruct (decide (typ = "TXT")) as [->|Htyp]; cycle 1.
  { destruct (godop_rejects c typ name token s) as [_ [e He]]; [by left|].
    rewrite He in H. injection H as <- <-. by left. }
  destruct (name_cases (godop.domain c) name) as [(p & Hp & ->)|Hrej]; cycle 1.
  { destruct (godop_rejects c "TXT" name token s) as [_ [e He]].
    { right. destruct Hrej; [by right|by left]. }
    rewrite He in H. injection H as <- <-. by left. }
  rewrite godop_Unprovision_below in H by done.
  destruct (godo.Records _ _) as [[records lerr] s1] eqn:HR.
  apply godo_Records_spec in HR as [Hz Hrs].
  destruct lerr as [e|]; [injection H as <- <-; by left|].
  specialize (Hrs eq_refl).
  destruct (List.find _ records) as [r|] eqn:Hfind; cycle 1.
  { injection H as <- <-. by left. }
  apply List.find_some in Hfind as [Hin Hm].
  apply godop_match_spec in Hm as (Hn & Ht & Hd).
  apply godo_DeleteRecord_spec in H as [[_ Hz']|(rs & -> & Hrs' & Hz')].
  - left. congruence.
  - right. exists p, records, r. rewrite Hz in Hrs', Hz'.
    assert (rs = records) as -> by congruence.
    repeat split; try done. by apply list_elem_of_In.
Qed.


Lemma gcdnsp_Unprovision_effect (c : gcdnsp.Client) (typ name token : string)
    (e e' : gcdnsp.Env) (err : option error) :
  gcdnsp.Unprovision c typ name token e = (err, e') →
  dns.zones (gcdnsp.svc e') = dns.zones (gcdnsp.svc e) ∨
  ∃ rs,
    let key := (gcdnsp.projectID c, gcdnsp.managedZone c) in
    let deletions := List.filter (gcdnsp_match (name +:+ ".") token) rs in
    err = None ∧ dns.zones (gcdnsp.svc e) !! key = Some rs ∧ deletions ≠ [] ∧
    dns.zones (gcdnsp.svc e')
    = <[key := dns.apply_change (dns.mkChange [] deletions) rs]> (dns.zones (gcdnsp.svc e)).
Proof.
  unfold gcdnsp.Unprovision, gcdnsp.allowedRecordType.
  destruct (negb (String.eqb typ "TXT")); [intros [= <- <-]; by left|].
  destruct (negb (strings.HasSuffix _ _)); [intros [= <- <-]; by left|].
  destruct (String.eqb (strings.TrimSuffix _ _) ""); [intros [= <- <-]; by left|].
  destruct (dns.ResourceRecordSetsList _ _ _) as [[pages lerr] s1] eqn:HL.
  destruct lerr as [le|].
  { intros [= <- <-]. left. simpl.
    revert HL. unfold dns.ResourceRecordSetsList, dns.receive.
    destruct (mjoin _); simpl; [by intros [= <- <- <-]|].
    destruct (_ !! _); by intros [= <- <- <-]. }
  apply ResourceRecordSetsList_pages in HL as [Hz Hrs].
  rewrite collect_pages. simpl.
  destruct (length _ <? 1)%nat eqn:Hlen; [intros [= <- <-]; by left|].
  apply Nat.ltb_ge in Hlen.
  destruct (dns.ChangesCreate _ _ _ _) as [cerr s2] eqn:HC.
  apply dns_ChangesCreate_spec in HC as [[Hne Hz']|(rs & -> & Hrs' & Hz')]; simpl in *.
  - destruct cerr; [|done]. intros [= <- <-]. left. simpl. congruence.
  - intros [= <- <-]. right. exists (concat pages). simpl.
    rewrite Hz in Hrs', Hz'. assert (rs = concat pages) as -> by congruence.
    repeat split; try done. intros Hnil. rewrite Hnil in Hlen. simpl in Hlen. lia.
Qed.


(** ** C10: validation errors reach no DNS API *)

(** C10.  For both provisioners, a call of [Provision] or [Unprovision] with
    a record type other than TXT, or with a name that does not end in
    ["." + domain], or with nothing before that suffix, returns an error and
    leaves what the provisioner acts on as it was: the zones, and the list of
    requests the service has received, so no request was issued. *)
Theorem validation_error_before_any_request (domain typ name token : string) :
  rejected_request domain typ name →
  (∀ c s, godop.domain c = domain →
     (∃ err, godop.Provision c typ name token s = (Some err, s)) ∧
     (∃ err, godop.Unprovision c typ name token s = (Some err, s))) ∧
  (∀ c e, gcdnsp.domain c = domain →
     (∃ err, gcdnsp.Provision c typ name token e = (Some err, e)) ∧
     (∃ err, gcdnsp.Unprovision c typ name token e = (Some err, e))).
Proof.
  intros Hrej. split.
  - intros c s <-. by apply godop_rejects.
  - intros c e <-. by apply gcdnsp_rejects.
Qed.

Lemma validation_error_example :
  rejected_request "test" "A" scenario_fqdn ∧
  (∃ err, godop.Unprovision (godop.New "test") "A" scenario_fqdn "tok" (ocean [])
          = (Some err, ocean [])) ∧
  (∃ err, gcdnsp.Provision (cloud_client "test") "A" scenario_fqdn "tok" (cloud [])
          = (Some err, cloud [])).
Proof.
  assert (rejected_request "test" "A" scenario_fqdn) as Hrej by (left; discriminate).
  split; [exact Hrej|].
  destruct (validation_error_before_any_request "test" "A" scenario_fqdn "tok" Hrej)
    as [Hgodop Hgcdnsp].
  split.
  - apply (Hgodop (godop.New "test") (ocean [])). reflexivity.
  - apply (Hgcdnsp (cloud_client "test") (cloud [])). reflexivity.
Defined.

(** ** C5: the record name *)







(** ** The propagation check of [gcdnsp.Provision], poller by poller *)

Lemma poll_None (token : string) (responses : list dnsr.Response) (done_ : error) :
  gcdnsp.poll token responses done_ = None ↔
  ∃ Answer, dnsr.Reply Answer ∈ responses ∧ gcdnsp.answer_has Answer token = true.
Proof.
  induction responses as [|[Answer|] rest IH]; simpl.
  - split; [done|]. intros (A & HA & _). by apply elem_of_nil in HA.
  - destruct (0 <? length Answer)%nat eqn:Hlen; simpl.
    + destruct (gcdnsp.answer_has Answer token) eqn:Hhas.
      * split; [|done]. intros _. exists Answer. split; [left|done].
      * rewrite IH. split; intros (A & HA & Hh).
        -- exists A. split; [by right|done].
        -- apply elem_of_cons in HA as [[= ->]|HA]; [congruence|]. by exists A.
    + rewrite IH. split; intros (A & HA & Hh).
      * exists A. split; [by right|done].
      * apply elem_of_cons in HA as [[= ->]|HA]; [|by exists A].
        destruct Answer; [done|]. simpl in Hlen. done.
  - rewrite IH. split; intros (A & HA & Hh).
    + exists A. split; [by right|done].
    + apply elem_of_cons in HA as [?|HA]; [done|]. by exists A.
Qed.

Lemma Wait_None (results : list (option error)) :
  gcdnsp.Wait results = None ↔ ∀ r, r ∈ results → r = None.
Proof.
  induction results as [|[err|] rest IH]; simpl.
  - split; [|done]. intros _ r Hr. by apply elem_of_nil in Hr.
  - split; [done|]. intros H. by specialize (H (Some err) ltac:(left)).
  - rewrite IH. split.
    + intros H r [->|Hr]%elem_of_cons; auto.
    + intros H r Hr. apply H. by right.
Qed.

(** [Provision] returns [nil] only if the poller of every configured
    nameserver found the token in an answer. *)
Lemma gcdnsp_Provision_every_nameserver (c : gcdnsp.Client) (typ name token : string)
    (e e' : gcdnsp.Env) :
  gcdnsp.Provision c typ name token e = (None, e') →
  ∀ ns, ns ∈ gcdnsp.nameservers c →
    ∃ Answer, dnsr.Reply Answer ∈ gcdnsp.answers e ns (name +:+ ".") ∧
              gcdnsp.answer_has Answer token = true.
Proof.
  unfold gcdnsp.Provision.
  destruct (negb _); [done|]. destruct (negb _); [done|]. destruct (String.eqb _ _); [done|].
  destruct (dns.ChangesCreate _ _ _ _) as [[cerr|] s1]; [done|]. simpl.
  destruct (gcdnsp.Wait _) as [werr|] eqn:HW; [done|]. intros _ ns Hns.
  apply (poll_None token _ (gcdnsp.ctx_err e)).
  rewrite Wait_None in HW. apply HW.
  apply list_elem_of_fmap. by exists ns.
Qed.

(** If the poller of one configured nameserver never finds the token,
    [Provision] returns an error. *)
Lemma gcdnsp_Provision_one_missing (c : gcdnsp.Client) (p token ns : string)
    (e : gcdnsp.Env) :
  p ≠ "" →
  let name := p +:+ "." +:+ gcdnsp.domain c in
  ns ∈ gcdnsp.nameservers c →
  (∀ Answer, dnsr.Reply Answer ∈ gcdnsp.answers e ns (name +:+ ".") →
             gcdnsp.answer_has Answer token = false) →
  ∃ err e', gcdnsp.Provision c "TXT" name token e = (Some err, e').
Proof.
  intros Hp name Hns Hmiss.
  destruct (gcdnsp.Provision c "TXT" name token e) as [[err|] e'] eqn:HP; [by eauto|].
  destruct (gcdnsp_Provision_every_nameserver c "TXT" name token e e' HP ns Hns)
    as (Answer & HA & Hhas).
  rewrite (Hmiss Answer HA) in Hhas. done.
Qed.

(** ** Paths in the cache directory *)

Section Paths.

Lemma elements_nonempty (path : string) : filepath.elements path ≠ [].
Proof.
  destruct path as [|c rest]; simpl; [done|].
  destruct (filepath.is_sep c); [done|]. by destruct (filepath.elements rest).
Qed.

Lemma elements_file (f : string) : has_sep f = false → filepath.elements f = [f].
Proof.
  induction f as [|c rest IH]; simpl; [done|].
  intros [Hc Hrest]%orb_false_elim. rewrite Hc, IH; done.
Qed.

Lemma elements_app_sep (a b : string) :
  filepath.elements (a +:+ "/" +:+ b) = filepath.elements a ++ filepath.elements b.
Proof.
  induction a as [|c a IH]; [done|].
  rewrite str_app_cons. simpl. rewrite IH.
  destruct (filepath.is_sep c); [done|].
  pose proof (elements_nonempty a). by destruct (filepath.elements a).
Qed.

Lemma clean_step_file (rooted : bool) (out : list string) (f : string) :
  file_name f → filepath.clean_step rooted out f = f :: out.
Proof.
  intros (_ & H0 & H1 & H2). unfold filepath.clean_step.
  apply String.eqb_neq in H0, H1, H2. by rewrite H0, H1, H2.
Qed.

Lemma join_sep_snoc (l : list string) (f : string) :
  filepath.join_sep (l ++ [f])
  = (match l with [] => "" | _ => filepath.join_sep l +:+ "/" end) +:+ f.
Proof.
  induction l as [|a l IH]; [done|].
  change (filepath.join_sep ((a :: l) ++ [f]))
    with (match l ++ [f] with
          | [] => a
          | _ => a +:+ "/" +:+ filepath.join_sep (l ++ [f])
          end).
  destruct l as [|b l].
  - simpl. by rewrite str_app_assoc.
  - change ((b :: l) ++ [f]) with (b :: (l ++ [f])) in *.
    rewrite IH. cbv beta iota.
    change (filepath.join_sep (a :: b :: l))
      with (a +:+ "/" +:+ filepath.join_sep (b :: l)).
    by rewrite !str_app_assoc.
Qed.

(** In a given directory, [Join] puts a file name behind a fixed prefix. *)
Lemma Join_file (dir : string) :
  ∃ pre, ∀ f, file_name f → filepath.Join dir f = pre +:+ f.
Proof.
  destruct dir as [|c d].
  - exists "". intros f Hf. pose proof Hf as (Hsep & H0 & _).
    unfold filepath.Join. simpl. rewrite (eqb_empty _ H0). simpl.
    unfold filepath.Clean. destruct f as [|c r]; [done|].
    rewrite (elements_file _ Hsep). simpl in Hsep.
    apply orb_false_elim in Hsep as [-> _]. simpl.
    by rewrite (clean_step_file false [] _ Hf).
  - set (rooted := filepath.is_sep c).
    set (stk := foldl (filepath.clean_step rooted) [] (filepath.elements (String c d))).
    exists ((if rooted then "/" else "")
            +:+ match rev stk with [] => "" | _ => filepath.join_sep (rev stk) +:+ "/" end).
    intros f Hf. pose proof Hf as (Hsep & _).
    unfold filepath.Join. simpl negb. cbv iota.
    rewrite str_app_cons. unfold filepath.Clean. fold rooted.
    rewrite <- str_app_cons, elements_app_sep, (elements_file _ Hsep).
    rewrite foldl_app. fold stk.
    change (foldl (filepath.clean_step rooted) stk [f])
      with (filepath.clean_step rooted stk f).
    rewrite (clean_step_file rooted stk _ Hf). simpl rev.
    rewrite join_sep_snoc.
    destruct rooted.
    + by rewrite !str_app_assoc.
    + rewrite str_app_empty_l. by destruct (rev stk).
Qed.

Lemma Join_file_inj (dir f f' : string) :
  file_name f → file_name f' → filepath.Join dir f = filepath.Join dir f' → f = f'.
Proof.
  intros Hf Hf'. destruct (Join_file dir) as [pre Hpre].
  rewrite (Hpre f Hf), (Hpre f' Hf'). apply String.app_inj.
Qed.

Lemma has_sep_app (a b : string) : has_sep (a +:+ b) = has_sep a || has_sep b.
Proof.
  induction a as [|c a IH]; [done|]. rewrite str_app_cons. simpl.
  by rewrite IH, orb_assoc.
Qed.

(** The name of a domain's key file is a file name when the domain holds no
    separator. *)
Lemma key_file_name (domain : string) :
  has_sep domain = false → file_name (domain +:+ autocertdns.keySuffix).
Proof.
  intros Hsep. split; [by rewrite has_sep_app, Hsep|].
  repeat split; intros Heq; apply (f_equal String.length) in Heq;
    rewrite str_length_app in Heq; simpl in Heq; lia.
Qed.

(** The key file of a domain and the account's key file are one file only for
    the domain [acme_account]. *)
Lemma key_files_differ (dir domain : string) :
  has_sep domain = false → domain ≠ "acme_account" →
  filepath.Join dir (domain +:+ autocertdns.keySuffix)
  ≠ filepath.Join dir autocertdns.acmeKeyFile.
Proof.
  intros Hsep Hne Heq. apply Hne.
  apply (str_app_inv_tail domain "acme_account" autocertdns.keySuffix).
  apply (Join_file_inj dir); [by apply key_file_name| |exact Heq].
  by apply (key_file_name "acme_account").
Qed.

End Paths.

(** ** The manager: how its statements run *)

Section ManagerRuns.

Import autocertdns.

Context {C B : Type} `{!Provisioner C B}.

Implicit Types (w : World C B) (evs : list event).

Lemma log_run (s : string) (v : list fmtarg) w :
  log s v w = (Next tt, w, log_events (mgr w) s v).
Proof. unfold log, log_events, bind, receiver, emit, ret. simpl. by destruct (Logf (mgr w)). Qed.

Lemma errf_run (s : string) (v : list fmtarg) w :
  errf s v w = (Next (fmt_Errorf s v), w, errf_events (mgr w) s v).
Proof.
  unfold errf, errf_events, log, bind, receiver, emit, ret. simpl.
  destruct (Errorf (mgr w)); simpl; [done|]. by destruct (Logf (mgr w)).
Qed.

Lemma return_errf_run {A} (s : string) (v : list fmtarg) w :
  return_errf (A:=A) s v w = (Return (fmt_Errorf s v), w, errf_events (mgr w) s v).
Proof.
  unfold return_errf, bind, return_. rewrite errf_run. by rewrite app_nil_r.
Qed.

Lemma steps_app evs evs' : steps (evs ++ evs') = steps evs ++ steps evs'.
Proof. apply List.filter_app. Qed.

Lemma steps_cons (ev : event) evs :
  steps (ev :: evs) = (if is_step ev then [ev] else []) ++ steps evs.
Proof. unfold steps. simpl. by destruct (is_step ev). Qed.

Lemma steps_errf (m : Manager C) (s : string) (v : list fmtarg) :
  steps (errf_events m s v) = [].
Proof. unfold errf_events. by destruct (Errorf m), (Logf m). Qed.

Lemma steps_log (m : Manager C) (s : string) (v : list fmtarg) :
  steps (log_events m s v) = [].
Proof. unfold log_events. by destruct (Logf m). Qed.

Lemma steps_disk evs : forallb is_disk evs = true → steps evs = [].
Proof.
  induction evs as [|ev evs IH]; [done|]. simpl. intros [Hev Hevs]%andb_prop.
  unfold steps in *. simpl. unfold is_step at 1. rewrite Hev. simpl. auto.
Qed.

(** [cachedKey]: it touches nothing but the file system; the file it names is
    the only one it may write, and only when absent; and the key it returns is
    the one the file holds afterwards. *)
Lemma cachedKey_call (filename : string) w :
  let keyfile := filepath.Join (CacheDir (mgr w)) filename in
  ∃ r w' evs,
    call (cachedKey filename) w = (Next r, w', evs) ∧
    mgr w' = mgr w ∧ backend w' = backend w ∧
    forallb is_disk evs = true ∧
    head evs = Some (EvLoadFile keyfile) ∧
    (pemutil.files (fs w') = pemutil.files (fs w) ∨
     ∃ k rest,
       pemutil.files (fs w) !! keyfile = None ∧
       pemutil.keygen (fs w) = Some k :: rest ∧ r = inl k ∧
       pemutil.keygen (fs w') = rest ∧
       pemutil.files (fs w')
       = <[keyfile := pemutil.PEM (pemutil.mkStore (Some k) None)]> (pemutil.files (fs w))) ∧
    (∀ k, r = inl k →
       ∃ store, pemutil.files (fs w') !! keyfile = Some (pemutil.PEM store) ∧
                pemutil.ECPrivateKey store = Some k).
Proof.
  intros keyfile. unfold call, cachedKey, bind, receiver, emit, on_fs, ret, return_.
  simpl. fold keyfile. unfold pemutil.LoadFile.
  destruct (pemutil.files (fs w) !! keyfile) as [[store|msg]|] eqn:Hfile; simpl.
  - destruct (pemutil.ECPrivateKey store) as [k|] eqn:Hk; simpl.
    + eexists _, _, _. repeat split; eauto. intros k' [= <-]. eauto.
    + eexists _, _, _. repeat split; eauto. intros k' [=].
  - eexists _, _, _. repeat split; eauto. intros k' [=].
  - unfold pemutil.GenerateECKeySet.
    destruct (pemutil.keygen (fs w)) as [|[k|] rest] eqn:Hgen; simpl;
      try (eexists _, _, _; repeat split; eauto; intros k' [=]; fail).
    destruct (pemutil.mkdir_err (fs w)) eqn:Hmk; simpl;
      try (eexists _, _, _; repeat split; eauto; intros k' [=]; fail).
    unfold pemutil.WriteFile. simpl.
    destruct (pemutil.write_err (fs w)) eqn:Hwr; simpl;
      try (eexists _, _, _; repeat split; eauto; intros k' [=]; fail).
    eexists _, _, _. repeat split; eauto.
    + right. exists k, rest. repeat split; eauto.
    + intros k' [= <-]. simpl. rewrite lookup_insert_eq. eauto.
Qed.

End ManagerRuns.

(** *** The executions of [renew], one by one *)

Ltac run :=
  cbv beta iota zeta delta [autocertdns.bind autocertdns.deferred autocertdns.emit autocertdns.receiver
                             autocertdns.ret autocertdns.return_ autocertdns.on_backend];
  rewrite ?return_errf_run, ?log_run;
  cbv beta iota zeta.

Tactic Notation "load_key" ident(k) ident(kerr) ident(w1) ident(evs1)
    ident(Hm) ident(Hb) ident(Hd) ident(Hh) ident(Hf) ident(Hk) :=
  match goal with
  | |- context [autocertdns.call (autocertdns.cachedKey ?f) ?w] =>
      let Hrun := fresh "Hrun" in
      destruct (cachedKey_call f w)
        as ([k|kerr] & w1 & evs1 & Hrun & Hm & Hb & Hd & Hh & Hf & Hk);
      rewrite Hrun; clear Hrun; simpl in Hm, Hb, Hh, Hf, Hk
  end.

Ltac leave fin :=
  try (destruct (autocertdns.Unprovision _ _ _ _ _) as [uerr b2] eqn:HUnprovision; run);
  intros [= <- <- <-]; fin.

(** Every way through [renew], in the order of the source; [fin] closes each
    exit, where the outcome, the final state and the events are known. *)
Ltac renew_cases fin :=
  run;
  destruct (String.eqb (autocertdns.Email (autocertdns.mgr _)) "") eqn:HEmail; run;
  [ leave fin
  | destruct (autocertdns.Prompt (autocertdns.mgr _)) as [prompt|] eqn:HPrompt; run;
    [ destruct (autocertdns.Provisioner_ (autocertdns.mgr _)) as [provisioner|]
        eqn:HProvisioner; run;
      [ load_key key kerr w1 evs1 Hmgr1 Hbackend1 Hdisk1 Hhead1 Hfiles1 Hkey1; run;
        [ destruct (autocertdns.register_failed _) eqn:HRegister; run;
          [ leave fin
          | destruct (acme.Authorize _ _ _) as [authz|aerr] eqn:HAuthorize; run;
            [ destruct (autocertdns.dns01_challenge _) as [challenge|] eqn:HChallenge; run;
              [ destruct (acme.DNS01ChallengeRecord _ _ _) as [tok|terr] eqn:HToken; run;
                [ destruct (autocertdns.Provision _ _ _ _ _) as [perr b1] eqn:HProvision;
                  run; destruct perr as [perr|]; run;
                  [ leave fin
                  | destruct (acme.Accept _ _ _) as [cerr|] eqn:HAccept; run;
                    [ leave fin
                    | destruct (acme.WaitAuthorization _ _ _) as [authz'|werr] eqn:HWait;
                      run;
                      [ destruct (negb (String.eqb (acme.Status authz') acme.StatusValid))
                          eqn:HStatus; run;
                        [ leave fin
                        | load_key certKey kerr w2 evs2 Hmgr2 Hbackend2 Hdisk2 Hhead2
                            Hfiles2 Hkey2;
                          run;
                          [ destruct (autocertdns.csr_err _) as [xerr|] eqn:HCsr; run;
                            [ leave fin
                            | destruct (acme.CreateCert _ _ _) as [[der urlstr]|cerr]
                                eqn:HCreateCert;
                              run; leave fin ]
                          | leave fin ] ]
                      | leave fin ] ] ]
                | leave fin ]
              | leave fin ]
            | leave fin ] ]
        | leave fin ]
      | leave fin ]
    | leave fin ] ].

Ltac renew_paths fin := unfold autocertdns.renew; renew_cases fin.

Section Manager.

Import autocertdns.

Context {C B : Type} `{!Provisioner C B}.

Implicit Types (w : World C B) (evs : list event).

(** [renew] never assigns a field of its receiver. *)
Lemma renew_keeps_manager (env : Env) w w' (o : outcome unit) evs :
  renew env w = (o, w', evs) → mgr w' = mgr w.
Proof. renew_paths ltac:(simpl; try congruence). Qed.

(** Every execution of [renew] follows the protocol. *)
Lemma renew_protocol (env : Env) w w' (o : outcome unit) evs :
  renew env w = (o, w', evs) → protocol (mgr w) o (steps evs).
Proof.
  renew_paths ltac:(
    repeat (rewrite steps_app || rewrite steps_cons); rewrite ?steps_errf, ?steps_log;
    repeat match goal with
           | Hd : forallb is_disk ?e = true |- _ => rewrite (steps_disk e Hd)
           end;
    simpl; econstructor).
Qed.

Lemma elem_of_steps (ev : event) evs : ev ∈ steps evs ↔ ev ∈ evs ∧ is_step ev = true.
Proof.
  unfold steps. rewrite !list_elem_of_In, List.filter_In. done.
Qed.

Lemma elem_of_steps_intro (ev : event) evs : ev ∈ evs → is_step ev = true → ev ∈ steps evs.
Proof. intros. by apply elem_of_steps. Qed.

Lemma elem_of_steps_elim (ev : event) evs : ev ∈ steps evs → ev ∈ evs.
Proof. by intros [? _]%elem_of_steps. Qed.

Lemma unprovision_steps evs :
  List.filter is_unprovision (steps evs) = List.filter is_unprovision evs.
Proof.
  induction evs as [|ev evs IH]; [done|]. unfold steps in *. simpl.
  destruct (is_step ev) eqn:Hs; simpl; rewrite IH; [done|].
  by destruct ev.
Qed.

End Manager.

(** Membership in an explicit list of events, by cases. *)
Ltac elems H :=
  repeat (apply elem_of_cons in H as [H|H]; [try discriminate H|]);
  try (by apply elem_of_nil in H).

(** The steps of an explicit list of events. *)
Ltac steps_in H :=
  repeat (rewrite steps_app in H || rewrite steps_cons in H);
  rewrite ?steps_errf, ?steps_log in H;
  repeat match goal with
         | Hd : forallb autocertdns.is_disk ?e = true |- _ => rewrite (steps_disk e Hd) in H
         end;
  simpl in H.

Ltac steps_goal :=
  repeat (rewrite steps_app || rewrite steps_cons);
  rewrite ?steps_errf, ?steps_log;
  repeat match goal with
         | Hd : forallb autocertdns.is_disk ?e = true |- _ => rewrite (steps_disk e Hd)
         end;
  simpl.


(** ** C4: the challenge record is always cleaned up *)



(** ** C8: configuration errors *)

(** C8.  When [Email], [Prompt] or [Provisioner] is unset, [renew] returns
    the error "must provide ..." of the first missing field; between taking
    and releasing the lock it does nothing but report that error, so no file is
    read, no key generated and no request sent; and the receiver, the file
    system and the DNS provider are as they were. *)
Theorem renew_configuration_error {C B : Type} `{!autocertdns.Provisioner C B}
    (env : autocertdns.Env) (w : autocertdns.World C B) :
  autocertdns.Email (autocertdns.mgr w) = "" ∨
  autocertdns.Prompt (autocertdns.mgr w) = None ∨
  autocertdns.Provisioner_ (autocertdns.mgr w) = None →
  ∃ field,
    field ∈ ["Email"; "Prompt"; "Provisioner"] ∧
    let err := fmt_Errorf ("must provide " +:+ field) [] in
    let evs := [autocertdns.EvLock]
               ++ errf_events (autocertdns.mgr w) ("must provide " +:+ field) []
               ++ [autocertdns.EvUnlock] in
    autocertdns.renew env w = (autocertdns.Return err, w, evs) ∧
    forallb is_local evs = true.
Proof.
  intros Hunset.
  assert (∀ s, forallb is_local
                 ([autocertdns.EvLock] ++ errf_events (autocertdns.mgr w) s []
                  ++ [autocertdns.EvUnlock]) = true) as Hlocal.
  { intros s. unfold errf_events.
    by destruct (autocertdns.Errorf (autocertdns.mgr w)), (autocertdns.Logf (autocertdns.mgr w)). }
  unfold autocertdns.renew. run.
  destruct (String.eqb (autocertdns.Email (autocertdns.mgr w)) "") eqn:HEmail; run.
  { exists "Email". split; [repeat constructor|]. split; [done|apply Hlocal]. }
  destruct (autocertdns.Prompt (autocertdns.mgr w)) as [prompt|] eqn:HPrompt; run; cycle 1.
  { exists "Prompt". split; [repeat constructor|]. split; [done|apply Hlocal]. }
  destruct (autocertdns.Provisioner_ (autocertdns.mgr w)) as [p|] eqn:HProvisioner; run;
    cycle 1.
  { exists "Provisioner". split; [repeat constructor|]. split; [done|apply Hlocal]. }
  destruct Hunset as [He|[?|?]]; [|done..].
  rewrite He in HEmail. done.
Qed.

(** A manager without an email address. *)
Lemma renew_configuration_error_example :
  let w := with_mgr (with_Email "" (manager_of "example.test" "test"))
             (fresh_world "example.test") in
  let run := autocertdns.renew (autocertdns.mkEnv authority None) w in
  autocertdns.Email (autocertdns.mgr w) = "" ∧
  (∃ field, run.1.1 = autocertdns.Return (fmt_Errorf ("must provide " +:+ field) [])) ∧
  run.1.2 = w ∧
  forallb is_local run.2 = true.
Proof.
  intros w run. split; [reflexivity|].
  destruct (renew_configuration_error (autocertdns.mkEnv authority None) w)
    as (field & _ & Hrun & Hlocal); [left; reflexivity|].
  subst run. rewrite Hrun. simpl. split; [by exists field|]. split; [done|exact Hlocal].
Defined.

(** ** C3: the certificate lookup *)

(** C3, as the code has it.  [GetCertificate] takes the read lock, returns the
    receiver's certificate — [nil] when none was obtained — with a [nil]
    error, and releases the lock: it sends no request, touches no file, changes
    nothing, and never returns an error. *)
Theorem GetCertificate_returns_live_certificate {C B : Type}
    `{!autocertdns.Provisioner C B} (w : autocertdns.World C B) :
  autocertdns.GetCertificate w
  = (autocertdns.Next (autocertdns.cert (autocertdns.mgr w), None), w,
     [autocertdns.EvRLock; autocertdns.EvRUnlock]) ∧
  forallb is_local [autocertdns.EvRLock; autocertdns.EvRUnlock] = true.
Proof. done. Qed.

(** C3 as stated fails: no certificate was ever obtained, and
    [GetCertificate] returns no error (with no certificate). *)
Lemma GetCertificate_without_certificate :
  let w := fresh_world "example.test" in
  autocertdns.cert (autocertdns.mgr w) = None ∧
  (autocertdns.GetCertificate w).1.1 = autocertdns.Next (None, None).
Proof. done. Qed.

(** ** C2: the renewal timer *)

Lemma afterRenew_run {C B : Type} `{!autocertdns.Provisioner C B}
    (now : time.Time) (w : autocertdns.World C B) :
  autocertdns.afterRenew now w
  = (autocertdns.Next (time.Sub (autocertdns.nextExpiry (autocertdns.mgr w)) now), w,
     [autocertdns.EvRLock; autocertdns.EvRUnlock]).
Proof. done. Qed.

(** The timer does not depend on [RenewBefore]. *)
Lemma afterRenew_ignores_RenewBefore {C B : Type} `{!autocertdns.Provisioner C B}
    (now expiry : time.Time) (window window' : time.Duration)
    (m : autocertdns.Manager C) (w : autocertdns.World C B) :
  (autocertdns.afterRenew now (with_mgr (with_schedule window expiry m) w)).1.1
  = (autocertdns.afterRenew now (with_mgr (with_schedule window' expiry m) w)).1.1.
Proof. done. Qed.


(** ** C1: what [renew] does with the certificate *)

(** C1 fails on the code.  The authority grants everything and returns a
    certificate chain; [renew] returns [nil], and yet the receiver has no
    certificate, its next expiry is what it was, the cache directory holds no
    certificate file, and the only files written are the two keys. *)
Theorem renew_discards_certificate :
  let w := fresh_world "example.test" in
  let run := autocertdns.renew (autocertdns.mkEnv authority None) w in
  run.1.1 = autocertdns.Next tt ∧
  acme.CreateCert authority (acme.mkClient 1%nat autocertdns.LetsEncryptURL)
    (x509.mkRequest "example.test" 2%nat)
  = inl (["der"], "https://ca.test/cert/1") ∧
  autocertdns.EvCreateCert (acme.mkClient 1%nat autocertdns.LetsEncryptURL)
    (x509.mkRequest "example.test" 2%nat) ∈ run.2 ∧
  autocertdns.cert (autocertdns.mgr run.1.2) = None ∧
  autocertdns.nextExpiry (autocertdns.mgr run.1.2)
  = autocertdns.nextExpiry (autocertdns.mgr w) ∧
  pemutil.files (autocertdns.fs run.1.2) !! "cache/example.test.crt" = None ∧
  List.filter is_write run.2
  = [autocertdns.EvWriteFile "cache/acme_account.key" (pemutil.mkStore (Some 1%nat) None);
     autocertdns.EvWriteFile "cache/example.test.key" (pemutil.mkStore (Some 2%nat) None)].
Proof. vm_compute. repeat split. repeat constructor. Qed.

(** ** C7: the key of the signing request *)

Lemma holds_key_insert_other (fs fs' : pemutil.FS) (path path' : string)
    (k : PrivateKey) (f : pemutil.file) :
  holds_key fs path k →
  pemutil.files fs !! path' = None →
  pemutil.files fs' = <[path' := f]> (pemutil.files fs) →
  holds_key fs' path k.
Proof.
  intros (store & Hfile & Hk) Hnone Hfs'. exists store. split; [|done].
  rewrite Hfs', lookup_insert_ne; [done|]. intros ->. congruence.
Qed.

Lemma holds_key_same_files (fs fs' : pemutil.FS) (path : string) (k : PrivateKey) :
  holds_key fs path k → pemutil.files fs' = pemutil.files fs → holds_key fs' path k.
Proof. intros (store & Hfile & Hk) Hfs'. exists store. by rewrite Hfs'. Qed.

(** C7, as the code has it.  The signing request [renew] builds is for the
    domain and is made with the key that [cachedKey] returns for
    [<Domain>.key]: the key held, when [renew] returns, by that file of the
    cache directory.  The ACME client works with the key held by
    [acme_account.key].  When the two are different files that both had to be
    created, the account key and the domain key are the first and the second
    key drawn from the generator.  They are different files for every domain
    without a path separator other than [acme_account]. *)
Theorem renew_signs_with_domain_key {C B : Type} `{!autocertdns.Provisioner C B}
    (env : autocertdns.Env) (w w' : autocertdns.World C B)
    (o : autocertdns.outcome unit) (evs : list autocertdns.event)
    (cn : string) (k : PrivateKey) :
  autocertdns.renew env w = (o, w', evs) →
  autocertdns.EvCreateCertificateRequest cn k ∈ evs →
  let m := autocertdns.mgr w in
  cn = autocertdns.Domain m ∧
  holds_key (autocertdns.fs w') (domain_key_file m) k ∧
  (∃ client account,
     autocertdns.EvRegister client account ∈ evs ∧
     holds_key (autocertdns.fs w') (account_key_file m) (acme.Key client) ∧
     (domain_key_file m ≠ account_key_file m →
      pemutil.files (autocertdns.fs w) !! account_key_file m = None →
      pemutil.files (autocertdns.fs w) !! domain_key_file m = None →
      ∃ rest, pemutil.keygen (autocertdns.fs w) = Some (acme.Key client) :: Some k :: rest)) ∧
  (has_sep (autocertdns.Domain m) = false → autocertdns.Domain m ≠ "acme_account" →
   domain_key_file m ≠ account_key_file m).
Proof.
  intros Hrun Hin m.
  assert (has_sep (autocertdns.Domain m) = false → autocertdns.Domain m ≠ "acme_account" →
          domain_key_file m ≠ account_key_file m) as Hdiffer.
  { intros Hsep Hne. by apply key_files_differ. }
  revert Hrun Hin. subst m. unfold domain_key_file, account_key_file in *.
  renew_paths ltac:(
    intros Hin; apply elem_of_steps_intro in Hin; [|done]; steps_in Hin; elems Hin).
  all: injection Hin as -> ->; simpl.
  all: rewrite ?Hmgr1 in *.
  all: destruct (Hkey1 key eq_refl) as (store1 & Hstore1 & Hk1).
  all: destruct (Hkey2 certKey eq_refl) as (store2 & Hstore2 & Hk2).
  all: split; [done|]; split; [by exists store2|]; split; [|done].
  all: eexists _, _; split; [apply elem_of_steps_elim; steps_goal; right; left|].
  all: simpl; split.
  all: try (destruct Hfiles2 as [Hsame|(k2 & rest2 & Hnone2 & _ & _ & _ & Hins2)];
            [ by apply (holds_key_same_files (autocertdns.fs w1)); [exists store1|]
            | by apply (holds_key_insert_other (autocertdns.fs w1) _ _ _ _ _
                          ltac:(by exists store1) Hnone2 Hins2) ]).
  all: intros Hne Hacc Hdom.
  all: destruct Hfiles1 as [Hsame1|(k1 & rest1 & _ & Hgen1 & [= <-] & Hrest1 & Hins1)];
         [rewrite Hsame1 in Hstore1; congruence|].
  all: destruct Hfiles2 as [Hsame2|(k2 & rest2 & _ & Hgen2 & [= <-] & _ & _)];
         [ rewrite Hsame2, Hins1, lookup_insert_ne in Hstore2 by done; congruence |].
  all: exists rest2; rewrite Hgen1; simpl in Hgen2; congruence.
Qed.

(** A first issuance for [example.test]: the request is signed with the
    second key drawn, which [cache/example.test.key] holds afterwards. *)
Lemma renew_signs_with_domain_key_example :
  let w := fresh_world "example.test" in
  let run := autocertdns.renew (autocertdns.mkEnv authority None) w in
  autocertdns.EvCreateCertificateRequest "example.test" 2%nat ∈ run.2 ∧
  holds_key (autocertdns.fs run.1.2) "cache/example.test.key" 2%nat.
Proof.
  intros w run.
  assert (autocertdns.EvCreateCertificateRequest "example.test" 2%nat ∈ run.2) as Hin
    by (vm_compute; repeat constructor).
  split; [exact Hin|].
  destruct (renew_signs_with_domain_key (autocertdns.mkEnv authority None) w
              run.1.2 run.1.1 run.2 "example.test" 2%nat) as (_ & Hkey & _).
  - subst run. by destruct (autocertdns.renew _ _) as [[o w'] evs].
  - exact Hin.
  - exact Hkey.
Defined.

(** C7 as stated fails for the domain [acme_account]: its key file is the
    account's key file, and the request is signed with the account key. *)
Lemma renew_signs_with_account_key :
  let w := fresh_world_of "acme_account" "acme_account" in
  let run := autocertdns.renew (autocertdns.mkEnv authority None) w in
  run.1.1 = autocertdns.Next tt ∧
  domain_key_file (autocertdns.mgr w) = "cache/acme_account.key" ∧
  account_key_file (autocertdns.mgr w) = "cache/acme_account.key" ∧
  autocertdns.EvRegister (acme.mkClient 1%nat autocertdns.LetsEncryptURL)
    (acme.mkAccount ["mailto:admin@example.test"]) ∈ run.2 ∧
  autocertdns.EvCreateCertificateRequest "acme_account" 1%nat ∈ run.2 ∧
  List.filter is_write run.2
  = [autocertdns.EvWriteFile "cache/acme_account.key" (pemutil.mkStore (Some 1%nat) None)].
Proof. vm_compute. repeat split; repeat constructor. Qed.

(** ** C6: what [Unprovision] removes and reports *)





(** * Further properties of the code *)

(** ** [cachedKey]: the cache of private keys *)

(** X1.  A key that [cachedKey] has returned is returned again by the next
    call for the same file name: that call only loads the file — it
    generates nothing, creates no directory and writes nothing — and leaves
    the state as it finds it. *)
Theorem cachedKey_round_trip {C B : Type} `{!autocertdns.Provisioner C B}
    (filename : string) (w w1 : autocertdns.World C B)
    (evs1 : list autocertdns.event) (k : PrivateKey) :
  autocertdns.call (autocertdns.cachedKey filename) w
  = (autocertdns.Next (inl k), w1, evs1) →
  autocertdns.call (autocertdns.cachedKey filename) w1
  = (autocertdns.Next (inl k), w1,
     [autocertdns.EvLoadFile
        (filepath.Join (autocertdns.CacheDir (autocertdns.mgr w)) filename)]).
Proof.
  intros Hfirst.
  destruct (cachedKey_call filename w)
    as (r & w' & evs & Hrun & Hm & _ & _ & _ & _ & Hkey).
  rewrite Hrun in Hfirst. injection Hfirst as -> -> ->.
  destruct (Hkey k eq_refl) as (store & Hfile & Hk).
  unfold autocertdns.call, autocertdns.cachedKey, autocertdns.bind, autocertdns.receiver,
    autocertdns.emit, autocertdns.on_fs, autocertdns.ret, autocertdns.return_.
  destruct w1 as [m1 fs1 b1]. simpl in *. subst m1.
  unfold pemutil.LoadFile. rewrite Hfile. simpl. by rewrite Hk.
Qed.

(** A first call on an empty cache, then the same call again. *)
Lemma cachedKey_round_trip_example :
  let first := autocertdns.call (autocertdns.cachedKey "acme_account.key")
                 (fresh_world "example.test") in
  first.1.1 = autocertdns.Next (inl 1%nat) ∧
  autocertdns.call (autocertdns.cachedKey "acme_account.key") first.1.2
  = (autocertdns.Next (inl 1%nat), first.1.2,
     [autocertdns.EvLoadFile "cache/acme_account.key"]).
Proof.
  intros first. split; [reflexivity|].
  apply (cachedKey_round_trip "acme_account.key" (fresh_world "example.test")
           first.1.2 first.2 1%nat).
  reflexivity.
Defined.

(** X2.  When the key file exists, [cachedKey] only loads it: the state is
    unchanged and nothing is generated or written.  It returns the key when
    the file is a PEM file holding an EC private key, and an error otherwise
    ("does not contain ec private key", or "unexpected error" with the error
    of the load). *)
Theorem cachedKey_existing_file {C B : Type} `{!autocertdns.Provisioner C B}
    (filename : string) (w : autocertdns.World C B) (f : pemutil.file) :
  let keyfile := filepath.Join (autocertdns.CacheDir (autocertdns.mgr w)) filename in
  pemutil.files (autocertdns.fs w) !! keyfile = Some f →
  ∃ r,
    autocertdns.call (autocertdns.cachedKey filename) w
    = (autocertdns.Next r, w, [autocertdns.EvLoadFile keyfile]) ∧
    (∀ k, r = inl k ↔
          ∃ store, f = pemutil.PEM store ∧ pemutil.ECPrivateKey store = Some k) ∧
    (∀ store, f = pemutil.PEM store → pemutil.ECPrivateKey store = None →
       r = inr (fmt_Errorf "%s does not contain ec private key" [ArgString keyfile])) ∧
    (∀ msg, f = pemutil.Unreadable msg →
       r = inr (fmt_Errorf "unexpected error: %v" [ArgError (errors_New msg)])).
Proof.
  intros keyfile Hfile.
  unfold autocertdns.call, autocertdns.cachedKey, autocertdns.bind, autocertdns.receiver,
    autocertdns.emit, autocertdns.on_fs, autocertdns.ret, autocertdns.return_.
  simpl. fold keyfile. unfold pemutil.LoadFile. rewrite Hfile.
  destruct w as [m fs b]. simpl in *.
  destruct f as [store|msg]; simpl.
  - destruct (pemutil.ECPrivateKey store) as [k|] eqn:Hk; simpl;
      (eexists; split; [done|]; split; [|split]);
      [ intros k'; split; [intros [= <-]; by exists store
                          |intros (store' & [= <-] & Hk'); congruence]
      | intros store' [= <-] Hk'; congruence
      | done
      | intros k'; split; [done|intros (store' & [= <-] & Hk'); congruence]
      | done
      | done ].
  - eexists; split; [done|]; split; [|split].
    + intros k'. split; [done|]. by intros (store' & [=] & _).
    + done.
    + by intros msg' [= <-].
Qed.

(** A key file that holds a certificate and no key. *)
Lemma cachedKey_existing_file_example :
  let store := pemutil.mkStore None (Some (x509.mkCertificate "example.test" 0)) in
  let w := autocertdns.mkWorld (manager_of "example.test" "test")
             (pemutil.mkFS {[ "cache/example.test.key" := pemutil.PEM store ]}
                [Some 1%nat] None None)
             (ocean []) in
  ∃ r,
    autocertdns.call (autocertdns.cachedKey "example.test.key") w
    = (autocertdns.Next r, w, [autocertdns.EvLoadFile "cache/example.test.key"]) ∧
    r = inr (fmt_Errorf "%s does not contain ec private key"
               [ArgString "cache/example.test.key"]).
Proof.
  intros store w.
  destruct (cachedKey_existing_file "example.test.key" w (pemutil.PEM store))
    as (r & Hrun & _ & Hnokey & _); [reflexivity|].
  exists r. split; [exact Hrun|]. by apply (Hnokey store).
Defined.

(** X3.  When the key file is missing, [cachedKey] generates a key, creates
    the cache directory and writes the file, in this order, and returns the
    generated key; if the generator, the directory creation or the write
    fails, it returns an error and no file has been created. *)
Theorem cachedKey_missing_file {C B : Type} `{!autocertdns.Provisioner C B}
    (filename : string) (w w' : autocertdns.World C B)
    (r : PrivateKey + error) (evs : list autocertdns.event) :
  let keyfile := filepath.Join (autocertdns.CacheDir (autocertdns.mgr w)) filename in
  pemutil.files (autocertdns.fs w) !! keyfile = None →
  autocertdns.call (autocertdns.cachedKey filename) w = (autocertdns.Next r, w', evs) →
  (∀ k, r = inl k →
     let store := pemutil.mkStore (Some k) None in
     head (pemutil.keygen (autocertdns.fs w)) = Some (Some k) ∧
     pemutil.files (autocertdns.fs w')
     = <[keyfile := pemutil.PEM store]> (pemutil.files (autocertdns.fs w)) ∧
     evs = [autocertdns.EvLoadFile keyfile; autocertdns.EvGenerateECKeySet;
            autocertdns.EvMkdirAll (autocertdns.CacheDir (autocertdns.mgr w));
            autocertdns.EvWriteFile keyfile store]) ∧
  (∀ err, r = inr err →
     pemutil.files (autocertdns.fs w') = pemutil.files (autocertdns.fs w) ∧
     ∀ store, autocertdns.EvWriteFile keyfile store ∈ evs →
              pemutil.write_err (autocertdns.fs w) ≠ None).
Proof.
  intros keyfile Hfile.
  unfold autocertdns.call, autocertdns.cachedKey, autocertdns.bind, autocertdns.receiver,
    autocertdns.emit, autocertdns.on_fs, autocertdns.ret, autocertdns.return_.
  simpl. fold keyfile. unfold pemutil.LoadFile. rewrite Hfile. simpl.
  unfold pemutil.GenerateECKeySet.
  destruct (pemutil.keygen (autocertdns.fs w)) as [|[k|] rest] eqn:Hgen; simpl;
    try (intros [= <- <- <-]; split; [done|]; intros err _; split; [done|];
         intros store Hin; elems Hin; fail).
  destruct (pemutil.mkdir_err (autocertdns.fs w)) eqn:Hmk; simpl;
    try (intros [= <- <- <-]; split; [done|]; intros err _; split; [done|];
         intros store Hin; elems Hin; fail).
  unfold pemutil.WriteFile. simpl.
  destruct (pemutil.write_err (autocertdns.fs w)) eqn:Hwr; simpl.
  - intros [= <- <- <-]. split; [done|]. intros err _. split; [done|]. done.
  - intros [= <- <- <-]. split; [|done]. intros k' [= <-]. done.
Qed.

(** The first key of an empty cache. *)
Lemma cachedKey_missing_file_example :
  let w := fresh_world "example.test" in
  let run := autocertdns.call (autocertdns.cachedKey "acme_account.key") w in
  pemutil.files (autocertdns.fs w) !! "cache/acme_account.key" = None ∧
  run.1.1 = autocertdns.Next (inl 1%nat) ∧
  pemutil.files (autocertdns.fs run.1.2)
  = <[ "cache/acme_account.key" := pemutil.PEM (pemutil.mkStore (Some 1%nat) None) ]>
      (pemutil.files (autocertdns.fs w)).
Proof.
  intros w run. split; [reflexivity|]. split; [reflexivity|].
  destruct (cachedKey_missing_file "acme_account.key" w run.1.2 (inl 1%nat) run.2)
    as [Hok _]; [reflexivity|reflexivity|].
  destruct (Hok 1%nat eq_refl) as (_ & Hfiles & _). exact Hfiles.
Defined.

(** ** Trimming *)

Section Trimming.

Local Open Scope nat_scope.

Variable f : ascii → bool.

Lemma str_rev_app_spec (s t : string) : String.rev_app s t = String.rev s +:+ t.
Proof.
  unfold String.rev. revert t. induction s as [|a s IH]; intros t; [done|]. simpl.
  rewrite (IH (String a t)), (IH (String a "")), str_app_assoc. done.
Qed.

Lemma str_rev_cons (a : ascii) (s : string) :
  String.rev (String a s) = String.rev s +:+ String a "".
Proof. unfold String.rev at 1. simpl. apply str_rev_app_spec. Qed.

Lemma str_rev_app (s t : string) : String.rev (s +:+ t) = String.rev t +:+ String.rev s.
Proof.
  induction s as [|a s IH].
  - by rewrite str_app_empty_l, str_app_empty_r.
  - by rewrite str_app_cons, !str_rev_cons, IH, str_app_assoc.
Qed.

Lemma str_rev_involutive (s : string) : String.rev (String.rev s) = s.
Proof.
  induction s as [|a s IH]; [done|].
  by rewrite str_rev_cons, str_rev_app, IH.
Qed.

Lemma str_rev_length (s : string) : String.length (String.rev s) = String.length s.
Proof.
  induction s as [|a s IH]; [done|].
  rewrite str_rev_cons, str_length_app, IH. simpl. lia.
Qed.

Lemma TrimLeftFunc_split (s : string) : ∃ pre, s = pre +:+ strings.TrimLeftFunc s f.
Proof.
  induction s as [|a s [pre IH]]; [by exists ""|]. simpl.
  destruct (f a); [|by exists ""].
  exists (String a pre). by rewrite str_app_cons, <- IH.
Qed.

Lemma TrimLeftFunc_head (s r : string) (c : ascii) :
  strings.TrimLeftFunc s f = String c r → f c = false.
Proof.
  induction s as [|a s IH]; [done|]. simpl.
  destruct (f a) eqn:Ha; [done|]. by intros [= <- _].
Qed.

Lemma TrimLeftFunc_fixed (s : string) :
  match s with EmptyString => True | String c _ => f c = false end →
  strings.TrimLeftFunc s f = s.
Proof. destruct s as [|c s]; [done|]. simpl. by intros ->. Qed.

Lemma TrimLeftFunc_idemp (s : string) :
  strings.TrimLeftFunc (strings.TrimLeftFunc s f) f = strings.TrimLeftFunc s f.
Proof.
  apply TrimLeftFunc_fixed.
  destruct (strings.TrimLeftFunc s f) as [|c r] eqn:Ht; [done|].
  by eapply TrimLeftFunc_head.
Qed.

Lemma TrimLeftFunc_length (s : string) :
  String.length (strings.TrimLeftFunc s f) ≤ String.length s.
Proof.
  destruct (TrimLeftFunc_split s) as [pre Hs].
  rewrite Hs at 2. rewrite str_length_app. lia.
Qed.

Lemma TrimLeftFunc_same_length (s : string) :
  String.length (strings.TrimLeftFunc s f) = String.length s →
  strings.TrimLeftFunc s f = s.
Proof.
  destruct (TrimLeftFunc_split s) as [pre Hs]. intros Hlen.
  rewrite Hs in Hlen at 2. rewrite str_length_app in Hlen.
  destruct pre as [|a pre]; [done|]. simpl in Hlen. lia.
Qed.

(** A string that [TrimFunc] leaves alone has nothing to trim at either
    end. *)
Lemma TrimFunc_fixed (s : string) :
  strings.TrimFunc s f = s →
  strings.TrimLeftFunc s f = s ∧
  strings.TrimLeftFunc (String.rev s) f = String.rev s.
Proof.
  unfold strings.TrimFunc, strings.TrimRightFunc. intros Hs.
  assert (String.length (strings.TrimLeftFunc s f) = String.length s) as Hlen.
  { pose proof (TrimLeftFunc_length s) as H1.
    pose proof (TrimLeftFunc_length (String.rev (strings.TrimLeftFunc s f))) as H2.
    rewrite str_rev_length in H2.
    apply (f_equal String.length) in Hs. rewrite str_rev_length in Hs. lia. }
  apply TrimLeftFunc_same_length in Hlen. rewrite Hlen in Hs. split; [done|].
  apply (f_equal String.rev) in Hs. by rewrite str_rev_involutive in Hs.
Qed.

Lemma TrimFunc_clean (s : string) :
  strings.TrimLeftFunc s f = s →
  strings.TrimLeftFunc (String.rev s) f = String.rev s →
  strings.TrimFunc s f = s.
Proof.
  unfold strings.TrimFunc, strings.TrimRightFunc. intros -> ->. apply str_rev_involutive.
Qed.

Lemma TrimFunc_idemp (s : string) :
  strings.TrimFunc (strings.TrimFunc s f) f = strings.TrimFunc s f.
Proof.
  apply TrimFunc_clean.
  - unfold strings.TrimFunc, strings.TrimRightFunc.
    set (a := strings.TrimLeftFunc s f).
    set (b := strings.TrimLeftFunc (String.rev a) f).
    apply TrimLeftFunc_fixed.
    destruct (String.rev b) as [|c r] eqn:Hb; [done|].
    destruct (TrimLeftFunc_split (String.rev a)) as [pre Hpre]. fold b in Hpre.
    apply (f_equal String.rev) in Hpre.
    rewrite str_rev_involutive, str_rev_app, Hb, str_app_cons in Hpre.
    by apply (TrimLeftFunc_head s (r +:+ String.rev pre)).
  - unfold strings.TrimFunc, strings.TrimRightFunc.
    by rewrite str_rev_involutive, TrimLeftFunc_idemp.
Qed.

End Trimming.

Lemma TrimFunc_quoted (s : string) :
  strings.TrimFunc s gcdnsp.is_quote = s →
  strings.TrimFunc (quoted s) gcdnsp.is_quote = s.
Proof.
  intros [Hl Hr]%TrimFunc_fixed.
  unfold quoted, strings.TrimFunc, strings.TrimRightFunc.
  change (strings.TrimLeftFunc (String "034" (s +:+ String "034" "")) gcdnsp.is_quote)
    with (strings.TrimLeftFunc (s +:+ String "034" "") gcdnsp.is_quote).
  destruct s as [|c r]; [done|].
  assert (gcdnsp.is_quote c = false) as Hc by (by eapply TrimLeftFunc_head).
  rewrite str_app_cons. simpl strings.TrimLeftFunc at 2. rewrite Hc.
  rewrite <- str_app_cons, str_rev_app.
  change (String.rev (String "034" "")) with (String "034"%char "").
  rewrite str_app_cons, str_app_empty_l.
  change (strings.TrimLeftFunc (String "034" (String.rev (String c r))) gcdnsp.is_quote)
    with (strings.TrimLeftFunc (String.rev (String c r)) gcdnsp.is_quote).
  rewrite Hr. apply str_rev_involutive.
Qed.

(** ** [contains]: tokens and quotes *)

(** X4.  [contains] finds a token among TXT data whether the data hold it
    bare or between double quotes, as nameservers and the Cloud DNS API
    return them.  A token that itself begins or ends with a double quote is
    never found, whatever the data: the comparison is made against data
    stripped of their quotes. *)
Theorem contains_strips_quotes (haystack : list string) (needle : string) :
  (gcdnsp.contains haystack needle = true →
   strings.TrimFunc needle gcdnsp.is_quote = needle) ∧
  (strings.TrimFunc needle gcdnsp.is_quote = needle →
   needle ∈ haystack ∨ quoted needle ∈ haystack →
   gcdnsp.contains haystack needle = true).
Proof.
  split.
  - intros (s & _ & <-)%contains_spec. apply TrimFunc_idemp.
  - intros Hclean Hin. apply contains_spec.
    destruct Hin as [Hin|Hin]; eexists; (split; [exact Hin|]);
      [done|by apply TrimFunc_quoted].
Qed.

(** ** [godop]: provisioning and unprovisioning compose *)

Lemma godop_Provision_failed (c : godop.Client) (typ name token : string)
    (s s' : godo.Service) (err : error) :
  godop.Provision c typ name token s = (Some err, s') → godo.zones s' = godo.zones s.
Proof.
  unfold godop.Provision.
  destruct (negb (String.eqb typ "TXT")); [by intros [= _ <-]|].
  destruct (negb (strings.HasSuffix name _)); [by intros [= _ <-]|].
  destruct (String.eqb _ ""); [by intros [= _ <-]|].
  unfold godo.CreateRecord, godo.receive.
  destruct (mjoin (head (godo.faults s))); [by intros [= _ <-]|]. simpl.
  destruct (godo.zones s !! godop.domain c); [done|]. by intros [= _ <-].
Qed.

(** What a successful [Provision] has done. *)
Lemma godop_Provision_effect (c : godop.Client) (typ name token : string)
    (s s' : godo.Service) :
  godop.Provision c typ name token s = (None, s') →
  ∃ p rs,
    typ = "TXT" ∧ p ≠ "" ∧ name = p +:+ "." +:+ godop.domain c ∧
    godo.zones s !! godop.domain c = Some rs ∧
    s' = godo.mkService
           (<[godop.domain c := rs ++ [godo.mkRecord (godo.next_id s) "TXT" p token]]>
              (godo.zones s))
           (godo.next_id s + 1) (tail (godo.faults s))
           (godo.calls s ++ [godo.CallCreateRecord (godop.domain c)
                               (godo.mkEdit "TXT" p token)]).
Proof.
  intros Hrun.
  destruct (godop_Provision_accepts _ _ _ _ _ _ Hrun) as (-> & p & Hp & ->).
  rewrite godop_Provision_below in Hrun by done.
  unfold godo.CreateRecord, godo.receive in Hrun.
  destruct (mjoin (head (godo.faults s))); [done|]. simpl in Hrun.
  destruct (godo.zones s !! godop.domain c) as [rs|] eqn:Hrs; [|done].
  injection Hrun as <-. by exists p, rs.
Qed.

Lemma find_app_new {A} (P : A → bool) (l : list A) (x : A) :
  (∀ y, y ∈ l → P y = false) → P x = true → List.find P (l ++ [x]) = Some x.
Proof.
  intros Hl Hx. induction l as [|y l IH]; simpl; [by rewrite Hx|].
  rewrite (Hl y) by (by left). apply IH. intros z Hz. apply Hl. by right.
Qed.

Lemma remove_id_new (rs : list godo.DomainRecord) (r : godo.DomainRecord) :
  (∀ r', r' ∈ rs → godo.ID r' ≠ godo.ID r) →
  godo.remove_id (godo.ID r) (rs ++ [r]) = rs.
Proof.
  intros Hfresh. unfold godo.remove_id. rewrite List.filter_app. simpl.
  rewrite Z.eqb_refl. simpl. rewrite app_nil_r.
  induction rs as [|r' rs IH]; [done|]. simpl.
  destruct (godo.ID r' =? godo.ID r) eqn:Hid.
  - apply Z.eqb_eq in Hid. destruct (Hfresh r'); [by left|done].
  - simpl. f_equal. apply IH. intros r'' Hin. apply Hfresh. by right.
Qed.

(** After a successful [Provision], [Unprovision] with the same arguments
    removes the record just created and nothing else. *)
Lemma godop_round_trip (c : godop.Client) (name token : string)
    (s s1 : godo.Service) (rs : list godo.DomainRecord) :
  godop.Provision c "TXT" name token s = (None, s1) →
  godo.zones s !! godop.domain c = Some rs →
  godo.faults s = [] →
  (∀ r, r ∈ rs → godo.ID r ≠ godo.next_id s) →
  (∀ r, r ∈ rs → godo.Type_ r = "TXT" → godo.Name r +:+ "." +:+ godop.domain c ≠ name) →
  ∃ s2, godop.Unprovision c "TXT" name token s1 = (None, s2) ∧
        godo.zones s2 = godo.zones s.
Proof.
  intros Hrun Hrs Hfaults Hfresh Hnone.
  destruct (godop_Provision_effect _ _ _ _ _ _ Hrun) as (p & rs' & _ & Hp & -> & Hrs' & ->).
  rewrite Hrs in Hrs'. injection Hrs' as <-.
  rewrite godop_Unprovision_below by done.
  unfold godo.Records, godo.receive. rewrite Hfaults. simpl.
  rewrite lookup_insert_eq.
  set (r := godo.mkRecord (godo.next_id s) "TXT" p token).
  rewrite (find_app_new _ rs r); cycle 1.
  { intros r' Hin. destruct (godop_match p token r') eqn:Hm; [|done].
    apply godop_match_spec in Hm as (Hn & Ht & _).
    destruct (Hnone r' Hin Ht). by rewrite Hn. }
  { by apply godop_match_spec. }
  unfold godo.DeleteRecord, godo.receive. simpl. rewrite lookup_insert_eq.
  eexists. split; [reflexivity|]. unfold godo.set_zone. simpl.
  rewrite insert_insert_eq.
  pose proof (remove_id_new rs r Hfresh) as Hrm. subst r. simpl in Hrm |- *.
  rewrite Hrm.
  apply map_eq. intros d. destruct (decide (d = godop.domain c)) as [->|Hne].
  - by rewrite lookup_insert_eq.
  - by rewrite lookup_insert_ne.
Qed.

(** X5.  With DigitalOcean, provisioning and unprovisioning are inverse:
    when [Provision] has succeeded, the API does not fail, and the domain held
    no TXT record under that name before, [Unprovision] with the same
    arguments succeeds and the records of every domain are what they were
    before [Provision]. *)
Theorem godop_Provision_then_Unprovision (c : godop.Client) (name token : string)
    (s s1 : godo.Service) (rs : list godo.DomainRecord) :
  godop.Provision c "TXT" name token s = (None, s1) →
  godo.zones s !! godop.domain c = Some rs →
  godo.faults s = [] →
  (∀ r, r ∈ rs → godo.ID r ≠ godo.next_id s) →
  (∀ r, r ∈ rs → godo.Type_ r = "TXT" → godo.Name r +:+ "." +:+ godop.domain c ≠ name) →
  (∃ p, name = p +:+ "." +:+ godop.domain c ∧
        godo.zones s1 !! godop.domain c
        = Some (rs ++ [godo.mkRecord (godo.next_id s) "TXT" p token])) ∧
  ∃ s2, godop.Unprovision c "TXT" name token s1 = (None, s2) ∧
        godo.zones s2 = godo.zones s.
Proof.
  intros Hrun Hrs Hfaults Hfresh Hnone. split.
  - destruct (godop_Provision_effect _ _ _ _ _ _ Hrun)
      as (p & rs' & _ & Hp & -> & Hrs' & ->).
    exists p. split; [done|]. simpl. rewrite lookup_insert_eq. congruence.
  - by eapply godop_round_trip.
Qed.

(** The challenge record of [example.test], beside a record of the domain. *)
Lemma godop_Provision_then_Unprovision_example :
  let www := godo.mkRecord 7 "A" "www" "192.0.2.1" in
  let s := godo.mkService {[ "test" := [www] ]} 8 [] [] in
  let s1 := (godop.Provision (godop.New "test") "TXT" scenario_fqdn "tok" s).2 in
  godo.zones s1 !! "test"
  = Some [www; godo.mkRecord 8 "TXT" "_acme-challenge.example" "tok"] ∧
  ∃ s2, godop.Unprovision (godop.New "test") "TXT" scenario_fqdn "tok" s1 = (None, s2) ∧
        godo.zones s2 = godo.zones s.
Proof.
  intros www s s1. split; [reflexivity|].
  destruct (godop_Provision_then_Unprovision (godop.New "test") scenario_fqdn "tok"
              s s1 [www]) as [_ Hback].
  - reflexivity.
  - reflexivity.
  - reflexivity.
  - intros r [->|Hin]%elem_of_cons; [done|by apply elem_of_nil in Hin].
  - intros r [->|Hin]%elem_of_cons; [done|by apply elem_of_nil in Hin].
  - exact Hback.
Defined.

(** ** [gcdnsp]: provisioning and unprovisioning compose *)

Lemma filter_none {A} (P : A → bool) (l : list A) :
  (∀ x, x ∈ l → P x = false) → List.filter P l = [].
Proof.
  induction l as [|x l IH]; [done|]. intros Hl. simpl.
  rewrite (Hl x) by (by left). apply IH. intros y Hy. apply Hl. by right.
Qed.

Lemma remove_first_new (rs : list dns.ResourceRecordSet) (d : dns.ResourceRecordSet) :
  d ∉ rs → dns.remove_first d (rs ++ [d]) = rs.
Proof.
  induction rs as [|r rs IH]; intros Hd; simpl.
  - by rewrite decide_True.
  - rewrite decide_False.
    + f_equal. apply IH. intros Hin. apply Hd. by right.
    + intros ->. apply Hd. by left.
Qed.

(** X6.  With Google Cloud DNS, provisioning and unprovisioning are inverse
    for a token that does not begin or end with a double quote: when
    [Provision] has succeeded, the API does not fail, and the managed zone
    held no TXT record set under that name before, the zone holds the new
    record set after [Provision], and [Unprovision] with the same arguments
    succeeds and leaves the record sets of every zone as they were before. *)
Theorem gcdnsp_Provision_then_Unprovision (c : gcdnsp.Client) (name token : string)
    (e e1 : gcdnsp.Env) (rs : list dns.ResourceRecordSet) :
  let key := (gcdnsp.projectID c, gcdnsp.managedZone c) in
  gcdnsp.Provision c "TXT" name token e = (None, e1) →
  dns.zones (gcdnsp.svc e) !! key = Some rs →
  dns.faults (gcdnsp.svc e) = [] →
  strings.TrimFunc token gcdnsp.is_quote = token →
  (∀ r, r ∈ rs → dns.Type_ r = "TXT" → dns.Name r ≠ name +:+ ".") →
  dns.zones (gcdnsp.svc e1) !! key
  = Some (rs ++ [dns.mkRRSet "TXT" (name +:+ ".") [token] 1]) ∧
  ∃ e2, gcdnsp.Unprovision c "TXT" name token e1 = (None, e2) ∧
        dns.zones (gcdnsp.svc e2) = dns.zones (gcdnsp.svc e).
Proof.
  intros key HP Hrs Hf Hclean Hnone. subst key.
  destruct (gcdnsp_Provision_accepts _ _ _ _ _ _ HP) as (_ & p & Hp & ->).
  set (name := p +:+ "." +:+ gcdnsp.domain c) in *.
  set (added := dns.mkRRSet "TXT" (name +:+ ".") [token] 1).
  assert (gcdnsp_match (name +:+ ".") token added = true) as Hadded.
  { apply gcdnsp_match_spec. split; [done|]. split; [done|].
    exists token. split; [by left|done]. }
  assert (∀ r, r ∈ rs → gcdnsp_match (name +:+ ".") token r = false) as Hrest.
  { intros r Hin. destruct (gcdnsp_match _ _ r) eqn:Hm; [|done].
    apply gcdnsp_match_spec in Hm as (Hn & Ht & _). by destruct (Hnone r Hin Ht). }
  assert (added ∉ rs) as Hnew.
  { intros Hin. rewrite (Hrest _ Hin) in Hadded. done. }
  assert (List.filter (gcdnsp_match (name +:+ ".") token) (rs ++ [added]) = [added])
    as Hfilter.
  { rewrite List.filter_app, (filter_none _ rs Hrest). simpl. by rewrite Hadded. }
  revert HP. unfold gcdnsp.Provision, gcdnsp.allowedRecordType. simpl.
  subst name added.
  rewrite HasSuffix_app, TrimSuffix_app, (eqb_empty _ Hp). simpl.
  unfold dns.ChangesCreate, dns.receive. rewrite Hf. simpl. rewrite Hrs.
  destruct (gcdnsp.Wait _); [done|]. intros [= <-]. simpl.
  rewrite lookup_insert_eq. split; [done|].
  unfold gcdnsp.Unprovision, gcdnsp.allowedRecordType. simpl.
  rewrite HasSuffix_app, TrimSuffix_app, (eqb_empty _ Hp). simpl.
  unfold dns.ResourceRecordSetsList, dns.receive. simpl. rewrite lookup_insert_eq.
  rewrite collect_pages, concat_paginate by done. simpl.
  unfold dns.apply_change. simpl. rewrite !Hfilter. simpl.
  unfold dns.ChangesCreate, dns.receive. simpl. rewrite lookup_insert_eq.
  eexists. split; [reflexivity|]. simpl.
  rewrite insert_insert_eq. unfold dns.apply_change. simpl.
  rewrite remove_first_new by done. rewrite app_nil_r.
  apply map_eq. intros k.
  destruct (decide (k = (gcdnsp.projectID c, gcdnsp.managedZone c))) as [->|Hne].
  - by rewrite lookup_insert_eq.
  - by rewrite lookup_insert_ne.
Qed.

(** The challenge record set of [example.test], beside a record set of the
    zone. *)
Lemma gcdnsp_Provision_then_Unprovision_example :
  let www := dns.mkRRSet "A" "www.example.test." ["192.0.2.1"] 300 in
  let e := cloud [www] in
  let e1 := (gcdnsp.Provision (cloud_client "test") "TXT" scenario_fqdn "tok" e).2 in
  dns.zones (gcdnsp.svc e1) !! ("project", "zone")
  = Some [www; dns.mkRRSet "TXT" "_acme-challenge.example.test." ["tok"] 1] ∧
  ∃ e2, gcdnsp.Unprovision (cloud_client "test") "TXT" scenario_fqdn "tok" e1 = (None, e2) ∧
        dns.zones (gcdnsp.svc e2) = dns.zones (gcdnsp.svc e).
Proof.
  intros www e e1.
  destruct (gcdnsp_Provision_then_Unprovision (cloud_client "test") scenario_fqdn "tok"
              e e1 [www]) as [Hadded Hback].
  - reflexivity.
  - reflexivity.
  - reflexivity.
  - reflexivity.
  - intros r [->|Hin]%elem_of_cons; [done|by apply elem_of_nil in Hin].
  - split; [exact Hadded|exact Hback].
Defined.

(** ** [gcdnsp]: the propagation check *)

Lemma answer_has_spec (Answer : list dnsr.RR) (token : string) :
  gcdnsp.answer_has Answer token = true ↔
  ∃ Txt s, dnsr.TXT Txt ∈ Answer ∧ s ∈ Txt ∧ strings.TrimFunc s gcdnsp.is_quote = token.
Proof.
  induction Answer as [|[Txt|] rest IH]; simpl.
  - split; [done|]. intros (Txt & s & Hin & _). by apply elem_of_nil in Hin.
  - destruct (gcdnsp.contains Txt token) eqn:Hc.
    + split; [|done]. intros _. apply contains_spec in Hc as (s & Hs & Ht).
      exists Txt, s. split; [by left|done].
    + rewrite IH. split.
      * intros (Txt' & s & Hin & Hs & Ht). exists Txt', s. split; [by right|done].
      * intros (Txt' & s & [[= ->]|Hin]%elem_of_cons & Hs & Ht).
        -- assert (gcdnsp.contains Txt token = true) as Hc'
             by (apply contains_spec; by exists s).
           congruence.
        -- by exists Txt', s.
  - rewrite IH. split.
    + intros (Txt & s & Hin & Hs & Ht). exists Txt, s. split; [by right|done].
    + intros (Txt & s & [[=]|Hin]%elem_of_cons & Hs & Ht). by exists Txt, s.
Qed.

Lemma poll_Some (token : string) (responses : list dnsr.Response) (done_ err : error) :
  gcdnsp.poll token responses done_ = Some err → err = done_.
Proof.
  induction responses as [|[Answer|] rest IH]; simpl.
  - congruence.
  - destruct (_ && _); [done|exact IH].
  - exact IH.
Qed.

Lemma Wait_Some (results : list (option error)) (err : error) :
  gcdnsp.Wait results = Some err → Some err ∈ results.
Proof.
  induction results as [|[err'|] rest IH]; simpl; [done|..].
  - intros [= ->]. by left.
  - intros H. right. by apply IH.
Qed.

(** X7.  Once Cloud DNS has accepted the new record set, [Provision]
    returns [nil] exactly when every configured nameserver has given, before
    the context was done, an answer with a TXT record holding the token
    (quotes stripped); exchange errors and other answers are passed over.
    Otherwise it returns the error of the context.  In both cases the
    record set stays in the zone: [Provision] does not undo the change when
    the check fails. *)
Theorem gcdnsp_Provision_checks_every_nameserver (c : gcdnsp.Client)
    (p token : string) (e : gcdnsp.Env) (rs : list dns.ResourceRecordSet) :
  let name := p +:+ "." +:+ gcdnsp.domain c in
  let result := gcdnsp.Provision c "TXT" name token e in
  p ≠ "" →
  dns.zones (gcdnsp.svc e) !! (gcdnsp.projectID c, gcdnsp.managedZone c) = Some rs →
  mjoin (head (dns.faults (gcdnsp.svc e))) = None →
  (result.1 = None ↔
   ∀ ns, ns ∈ gcdnsp.nameservers c →
     ∃ Answer Txt s,
       dnsr.Reply Answer ∈ gcdnsp.answers e ns (name +:+ ".") ∧
       dnsr.TXT Txt ∈ Answer ∧ s ∈ Txt ∧
       strings.TrimFunc s gcdnsp.is_quote = token) ∧
  (∀ err, result.1 = Some err → err = gcdnsp.ctx_err e) ∧
  dns.zones (gcdnsp.svc result.2) !! (gcdnsp.projectID c, gcdnsp.managedZone c)
  = Some (rs ++ [dns.mkRRSet "TXT" (name +:+ ".") [token] 1]).
Proof.
  intros name result Hp Hrs Hf. subst result name.
  unfold gcdnsp.Provision, gcdnsp.allowedRecordType. simpl.
  rewrite HasSuffix_app, TrimSuffix_app, (eqb_empty _ Hp). simpl.
  unfold dns.ChangesCreate, dns.receive. rewrite Hf. simpl. rewrite Hrs.
  destruct (gcdnsp.Wait _) as [werr|] eqn:HW; simpl.
  - split; [|split].
    + split; [done|]. intros Hall. apply Wait_Some in HW.
      apply list_elem_of_fmap in HW as (ns & Hpoll & Hns).
      destruct (Hall ns Hns) as (Answer & Txt & s & HA & HT & Hs & Ht).
      assert (gcdnsp.poll token
                (gcdnsp.answers e ns ((p +:+ "." +:+ gcdnsp.domain c) +:+ "."))
                (gcdnsp.ctx_err e) = None) as Hnone.
      { apply poll_None. exists Answer. split; [done|].
        apply answer_has_spec. by exists Txt, s. }
      simpl in Hpoll. congruence.
    + intros err [= <-]. apply Wait_Some in HW.
      apply list_elem_of_fmap in HW as (ns & Hpoll & Hns).
      symmetry in Hpoll. by apply poll_Some in Hpoll.
    + by rewrite lookup_insert_eq.
  - split; [|split].
    + split; [|done]. intros _ ns Hns. rewrite Wait_None in HW.
      assert (gcdnsp.poll token
                (gcdnsp.answers e ns ((p +:+ "." +:+ gcdnsp.domain c) +:+ "."))
                (gcdnsp.ctx_err e) = None) as Hnone.
      { apply HW. apply list_elem_of_fmap. by exists ns. }
      apply poll_None in Hnone as (Answer & HA & Hhas).
      apply answer_has_spec in Hhas as (Txt & s & HT & Hs & Ht).
      by exists Answer, Txt, s.
    + done.
    + by rewrite lookup_insert_eq.
Qed.

(** Two nameservers that fail the first query and answer the second with
    the quoted token. *)
Lemma gcdnsp_Provision_checks_every_nameserver_example :
  let result :=
    gcdnsp.Provision (cloud_client "test") "TXT" scenario_fqdn "tok" (cloud []) in
  result.1 = None ∧
  dns.zones (gcdnsp.svc result.2) !! ("project", "zone")
  = Some [dns.mkRRSet "TXT" "_acme-challenge.example.test." ["tok"] 1].
Proof.
  intros result.
  destruct (gcdnsp_Provision_checks_every_nameserver (cloud_client "test")
              "_acme-challenge.example" "tok" (cloud []) [])
    as (Hok & _ & Hzone).
  - done.
  - reflexivity.
  - reflexivity.
  - split; [|exact Hzone]. apply Hok. intros ns _.
    exists [dnsr.OtherRR; dnsr.TXT [quoted "tok"]], [quoted "tok"], (quoted "tok").
    split; [right; left|]. split; [right; left|]. split; [left|reflexivity].
Defined.

(** ** Requests that fail *)

(** X21.  A [Provision] of [godop] and an [Unprovision] of either
    provisioner that return an error have changed no record: whether the
    request was refused before any call or a call of the API failed, the
    records of every domain and zone are what they were. *)
Theorem failed_request_changes_no_record :
  (∀ c typ name token s s' err,
     godop.Provision c typ name token s = (Some err, s') →
     godo.zones s' = godo.zones s) ∧
  (∀ c typ name token s s' err,
     godop.Unprovision c typ name token s = (Some err, s') →
     godo.zones s' = godo.zones s) ∧
  (∀ c typ name token e e' err,
     gcdnsp.Unprovision c typ name token e = (Some err, e') →
     dns.zones (gcdnsp.svc e') = dns.zones (gcdnsp.svc e)).
Proof.
  split; [|split].
  - intros c typ name token s s' err. apply godop_Provision_failed.
  - intros c typ name token s s' err Hrun.
    by destruct (godop_Unprovision_effect _ _ _ _ _ _ _ Hrun)
      as [?|(p & rs & r & _ & [=] & _)].
  - intros c typ name token e e' err Hrun.
    by destruct (gcdnsp_Unprovision_effect _ _ _ _ _ _ _ Hrun) as [?|(rs & [=] & _)].
Qed.

(** ** [renew]: further properties of its executions *)

Section RenewRuns.

Import autocertdns.

Context {C B : Type} `{!Provisioner C B}.

Implicit Types (w : World C B) (evs : list event).

(** [renew] is [Lock], then a body, then the deferred [Unlock]. *)
Lemma renew_bracket (env : Env) w w' (o : outcome unit) evs :
  renew env w = (o, w', evs) → ∃ inside, evs = EvLock :: inside ++ [EvUnlock].
Proof.
  unfold renew.
  match goal with
  | |- bind (emit EvLock) (fun _ => deferred (emit EvUnlock) ?b) w = _ → _ =>
      generalize b
  end.
  intros body. unfold bind, deferred, emit.
  destruct (body w) as [[o1 w1] evs1]. simpl. intros [= <- <- <-]. by exists evs1.
Qed.

Lemma lock_steps evs : List.filter is_lock (steps evs) = List.filter is_lock evs.
Proof.
  induction evs as [|ev evs IH]; [done|]. unfold steps in *. simpl.
  destruct (is_step ev) eqn:Hs; simpl; rewrite IH; [done|].
  by destruct ev.
Qed.

Lemma renew_run (env : Env) w :
  renew env w = ((renew env w).1.1, (renew env w).1.2, (renew env w).2).
Proof. by destruct (renew env w) as [[o w'] evs]. Qed.

End RenewRuns.

(** Membership in a list built with [::] and [++], from membership in one of
    its parts. *)
Ltac find_in H :=
  solve [ exact H
        | apply elem_of_cons; right; find_in H
        | apply elem_of_app; left; find_in H
        | apply elem_of_app; right; find_in H ].

(** X8.  Every execution of [renew] takes the writer lock first and releases
    it last, takes no other lock in between, and its requests in between
    follow the protocol: registration, authorization, provisioning of the
    challenge record, acceptance, the wait for the authorization, the signing
    request, the certificate request and the unprovisioning of the record,
    in this order, up to the step that fails. *)
Theorem renew_holds_lock {C B : Type} `{!autocertdns.Provisioner C B}
    (env : autocertdns.Env) (w : autocertdns.World C B) :
  let run := autocertdns.renew env w in
  protocol (autocertdns.mgr w) run.1.1 (steps run.2) ∧
  head run.2 = Some autocertdns.EvLock ∧
  last run.2 = Some autocertdns.EvUnlock ∧
  List.filter is_lock run.2 = [autocertdns.EvLock; autocertdns.EvUnlock].
Proof.
  intros run. pose proof (renew_run env w) as Hrun. fold run in Hrun.
  pose proof (renew_protocol _ _ _ _ _ Hrun) as Hp.
  destruct (renew_bracket _ _ _ _ _ Hrun) as [inside Hevs].
  split; [exact Hp|]. rewrite <- lock_steps.
  split; [by rewrite Hevs|]. split.
  - rewrite Hevs.
    change (autocertdns.EvLock :: inside ++ [autocertdns.EvUnlock])
      with ((autocertdns.EvLock :: inside) ++ [autocertdns.EvUnlock]).
    apply last_snoc.
  - remember (steps run.2) as l eqn:Hl. clear Hl. by inversion Hp.
Qed.

(** X9.  [renew] returns [nil] exactly when it has asked the authority for
    the certificate and the authority has issued it: every earlier failure,
    and a refusal of the certificate, is returned as an error. *)
Theorem renew_succeeds_iff_certificate_issued {C B : Type}
    `{!autocertdns.Provisioner C B}
    (env : autocertdns.Env) (w : autocertdns.World C B) :
  let run := autocertdns.renew env w in
  run.1.1 = autocertdns.Next tt ↔
  ∃ client csr der urlstr,
    autocertdns.EvCreateCert client csr ∈ run.2 ∧
    acme.CreateCert (autocertdns.server env) client csr = inl (der, urlstr).
Proof.
  intros run. subst run.
  destruct (autocertdns.renew env w) as [[o w'] evs] eqn:Hrun. simpl. revert Hrun.
  renew_paths ltac:(idtac).
  all: split;
    [ intros Ho; try discriminate Ho
    | intros (cl & csr & der' & urlstr' & Hin & Hcc);
      apply elem_of_steps_intro in Hin; [|done]; steps_in Hin; elems Hin ].
  - eexists _, _, _, _. split; [|exact HCreateCert].
    apply elem_of_steps_elim. steps_goal. repeat constructor.
  - done.
  - injection Hin as -> ->. congruence.
Qed.

(** What [renew] returns as an error it has passed through [errf]. *)
Lemma renew_errf_events {C B : Type} `{!autocertdns.Provisioner C B}
    (env : autocertdns.Env) (w : autocertdns.World C B) (err : error) :
  (autocertdns.renew env w).1.1 = autocertdns.Return err →
  ∃ s v,
    err = fmt_Errorf s v ∧
    ∀ ev, ev ∈ errf_events (autocertdns.mgr w) s v → ev ∈ (autocertdns.renew env w).2.
Proof.
  destruct (autocertdns.renew env w) as [[o w'] evs] eqn:Hrun. simpl. revert Hrun.
  renew_paths ltac:(idtac).
  all: intros [= <-] || intros [=].
  all: rewrite ?Hmgr2, ?Hmgr1.
  all: eexists _, _; (split; [reflexivity|]); intros ev Hev.
  all: find_in Hev.
Qed.

(** X10.  Every error [renew] returns was built by [errf]: it is the
    [fmt.Errorf] of a format [s] and its arguments [v], and it has been
    reported before the return.  When [Errorf] is set, the report is the call
    [m.Errorf(s, v)]: [Errorf] receives the format and a single operand, the
    slice of the arguments, not the arguments themselves.  When [Errorf] is
    nil and [Logf] is set, the report is [m.Logf("ERROR: %v", err)]. *)
Theorem renew_reports_its_error {C B : Type} `{!autocertdns.Provisioner C B}
    (env : autocertdns.Env) (w : autocertdns.World C B) (err : error) :
  (autocertdns.renew env w).1.1 = autocertdns.Return err →
  ∃ s v,
    err = fmt_Errorf s v ∧
    (autocertdns.Errorf (autocertdns.mgr w) = true →
     autocertdns.EvErrorf s [ArgSlice v] ∈ (autocertdns.renew env w).2) ∧
    (autocertdns.Errorf (autocertdns.mgr w) = false →
     autocertdns.Logf (autocertdns.mgr w) = true →
     autocertdns.EvLogf "ERROR: %v" [ArgError err] ∈ (autocertdns.renew env w).2).
Proof.
  intros Herr. destruct (renew_errf_events env w err Herr) as (s & v & -> & Hin).
  exists s, v. split; [done|]. unfold errf_events in Hin. split.
  - intros HErrorf. rewrite HErrorf in Hin. apply Hin. by left.
  - intros HErrorf HLogf. rewrite HErrorf, HLogf in Hin. apply Hin. by left.
Qed.

(** A manager without a provisioner that reports through [Errorf]: [Errorf]
    is given the format and the empty slice of arguments. *)
Lemma renew_reports_its_error_example :
  let m := autocertdns.mkManager (C:=godop.Client) "" (Some autocertdns.AcceptTOS)
             "cache" "admin@example.test" "example.test" 0 None true true None 0 in
  let w := with_mgr m (fresh_world "example.test") in
  let err := fmt_Errorf "must provide Provisioner" [] in
  (autocertdns.renew (autocertdns.mkEnv authority None) w).1.1 = autocertdns.Return err ∧
  autocertdns.EvErrorf "must provide Provisioner" [ArgSlice []]
  ∈ (autocertdns.renew (autocertdns.mkEnv authority None) w).2.
Proof.
  intros m w err. split; [reflexivity|].
  destruct (renew_reports_its_error (autocertdns.mkEnv authority None) w err eq_refl)
    as (s & v & Herr & Hreport & _).
  injection Herr as <- <-. apply Hreport. reflexivity.
Defined.

Lemma may_create_keeps (path0 path : string) (fs fs' : pemutil.FS) (f : pemutil.file) :
  may_create path0 fs fs' →
  pemutil.files fs !! path = Some f → pemutil.files fs' !! path = Some f.
Proof.
  intros [->|(k & Hnone & ->)] Hf; [done|].
  rewrite lookup_insert_ne; [done|]. intros ->. congruence.
Qed.

Lemma may_create_new (path0 path : string) (fs fs' : pemutil.FS) (f : pemutil.file) :
  may_create path0 fs fs' →
  pemutil.files fs !! path = None → pemutil.files fs' !! path = Some f →
  path = path0 ∧ ∃ k, f = pemutil.PEM (pemutil.mkStore (Some k) None).
Proof.
  intros [->|(k & Hnone & ->)] Hf Hf'; [congruence|].
  destruct (decide (path0 = path)) as [<-|Hne].
  - rewrite lookup_insert_eq in Hf'. injection Hf' as <-. eauto.
  - rewrite lookup_insert_ne in Hf' by done. congruence.
Qed.

(** X11.  [renew] never changes or removes a file that exists, and the only
    files it can create are the account key file and the domain key file,
    each a PEM file holding a private key and nothing else: on no execution
    does it write a certificate to the cache directory. *)
Theorem renew_creates_only_key_files {C B : Type} `{!autocertdns.Provisioner C B}
    (env : autocertdns.Env) (w : autocertdns.World C B) (path : string) :
  let w' := (autocertdns.renew env w).1.2 in
  let m := autocertdns.mgr w in
  (∀ f, pemutil.files (autocertdns.fs w) !! path = Some f →
        pemutil.files (autocertdns.fs w') !! path = Some f) ∧
  (pemutil.files (autocertdns.fs w) !! path = None →
   ∀ f, pemutil.files (autocertdns.fs w') !! path = Some f →
        (path = account_key_file m ∨ path = domain_key_file m) ∧
        ∃ k, f = pemutil.PEM (pemutil.mkStore (Some k) None)).
Proof.
  intros w' m. subst w' m. unfold account_key_file, domain_key_file.
  destruct (autocertdns.renew env w) as [[o w'] evs] eqn:Hrun. simpl. revert Hrun.
  renew_paths ltac:(idtac).
  all: simpl.
  all: try (split; [done|]; intros Hnone f Hf; congruence).
  all: assert (may_create
                 (filepath.Join (autocertdns.CacheDir (autocertdns.mgr w))
                    autocertdns.acmeKeyFile)
                 (autocertdns.fs w) (autocertdns.fs w1)) as Hc1
         by (destruct Hfiles1 as [?|(k1 & rest1 & ? & _ & _ & _ & ?)];
             [by left|right; by exists k1]).
  all: try (split;
            [ intros f Hf; by eapply may_create_keeps
            | intros Hnone f Hf;
              destruct (may_create_new _ _ _ _ _ Hc1 Hnone Hf) as [-> Hk]; auto ];
            fail).
  all: rewrite Hmgr1 in Hfiles2.
  all: assert (may_create
                 (filepath.Join (autocertdns.CacheDir (autocertdns.mgr w))
                    (autocertdns.Domain (autocertdns.mgr w) +:+ autocertdns.keySuffix))
                 (autocertdns.fs w1) (autocertdns.fs w2)) as Hc2
         by (destruct Hfiles2 as [?|(k2 & rest2 & ? & _ & _ & _ & ?)];
             [by left|right; by exists k2]).
  all: split;
    [ intros f Hf; eapply may_create_keeps; [exact Hc2|];
      by eapply may_create_keeps
    | intros Hnone f Hf;
      destruct (pemutil.files (autocertdns.fs w1) !! path) as [f1|] eqn:Hf1;
      [ rewrite (may_create_keeps _ _ _ _ _ Hc2 Hf1) in Hf; injection Hf as <-;
        destruct (may_create_new _ _ _ _ _ Hc1 Hnone Hf1) as [-> Hk]; auto
      | destruct (may_create_new _ _ _ _ _ Hc2 Hf1 Hf) as [-> Hk]; auto ] ].
Qed.

(** X12.  [renew] registers the account [mailto:<Email>] with a client for
    [DirectoryURL], or for the Let's Encrypt directory when [DirectoryURL] is
    empty.  It goes on to the authorization when [Register] returns no error
    or an [*acme.Error] with status 409 (the account exists already); with
    any other error it returns "could not register with ACME server" and
    sends nothing more. *)
Theorem renew_registration {C B : Type} `{!autocertdns.Provisioner C B}
    (env : autocertdns.Env) (w : autocertdns.World C B)
    (tos : string → bool) (client : acme.Client) (account : acme.Account) :
  let run := autocertdns.renew env w in
  let m := autocertdns.mgr w in
  autocertdns.Prompt m = Some tos →
  autocertdns.EvRegister client account ∈ run.2 →
  let registered := acme.Register (autocertdns.server env) client account tos in
  account = acme.mkAccount ["mailto:" +:+ autocertdns.Email m] ∧
  acme.DirectoryURL client
  = (if String.eqb (autocertdns.DirectoryURL m) ""
     then acme.LetsEncryptURL else autocertdns.DirectoryURL m) ∧
  (registered = None ∨ registered = Some (acme_Error 409) →
   autocertdns.EvAuthorize client (autocertdns.Domain m) ∈ run.2) ∧
  (∀ err, registered = Some err → err ≠ acme_Error 409 →
     run.1.1 = autocertdns.Return
                 (fmt_Errorf "could not register with ACME server: %v" [ArgError err]) ∧
     steps run.2 = [autocertdns.EvLock; autocertdns.EvRegister client account;
                    autocertdns.EvUnlock]).
Proof.
  intros run m. subst run m. intros Hprompt.
  destruct (autocertdns.renew env w) as [[o w'] evs] eqn:Hrun. simpl. revert Hrun.
  renew_paths ltac:(idtac).
  all: intros Hin; apply elem_of_steps_intro in Hin; [|done]; steps_in Hin; elems Hin.
  all: injection Hin as -> ->; simpl.
  all: assert (prompt = tos) as -> by congruence.
  all: split; [done|]; split; [done|].
  all: unfold autocertdns.register_failed in HRegister.
  all: split;
    [ intros Hok;
      try (apply elem_of_steps_elim; steps_goal; repeat constructor; fail)
    | intros err Herr Hne ].
  all: try (rewrite Herr in HRegister; destruct err as [| |code| | |];
            try discriminate HRegister;
            destruct (code =? acme.StatusConflict) eqn:Hcode;
            [apply Z.eqb_eq in Hcode; unfold acme.StatusConflict in Hcode; congruence
            |discriminate HRegister]).
  - destruct Hok as [Hok|Hok]; rewrite Hok in HRegister; discriminate HRegister.
  - rewrite Herr in HRegister.
    assert (e = err) as ->.
    { destruct err as [| |code| | |]; try congruence.
      destruct (code =? acme.StatusConflict); congruence. }
    split; [done|]. by steps_goal.
Qed.

(** The authority knows the account already. *)
Lemma renew_registration_example :
  let known :=
    acme.mkServer (fun _ _ _ => Some (acme_Error 409))
      (acme.Authorize authority) (acme.DNS01ChallengeRecord authority)
      (acme.Accept authority) (acme.WaitAuthorization authority)
      (acme.CreateCert authority) in
  let run := autocertdns.renew (autocertdns.mkEnv known None) (fresh_world "example.test") in
  let client := acme.mkClient 1%nat acme.LetsEncryptURL in
  run.1.1 = autocertdns.Next tt ∧
  autocertdns.EvAuthorize client "example.test" ∈ run.2.
Proof.
  intros known run client. split; [reflexivity|].
  destruct (renew_registration (autocertdns.mkEnv known None) (fresh_world "example.test")
              autocertdns.AcceptTOS client
              (acme.mkAccount ["mailto:admin@example.test"]))
    as (_ & _ & Hgo & _).
  - reflexivity.
  - vm_compute. repeat constructor.
  - apply Hgo. right. reflexivity.
Defined.

Lemma dns01_challenge_Some (Challenges : list acme.Challenge) (challenge : acme.Challenge) :
  autocertdns.dns01_challenge Challenges = Some challenge →
  ∃ before after,
    Challenges = before ++ challenge :: after ∧
    acme.Type_ challenge = "dns-01" ∧
    ∀ c, c ∈ before → acme.Type_ c ≠ "dns-01".
Proof.
  induction Challenges as [|c rest IH]; [done|]. simpl.
  destruct (String.eqb (acme.Type_ c) "dns-01") eqn:Hc.
  - intros [= <-]. exists [], rest. apply String.eqb_eq in Hc.
    split; [done|]. split; [done|]. intros c' Hin. by apply elem_of_nil in Hin.
  - intros (before & after & -> & Ht & Hb)%IH. exists (c :: before), after.
    split; [done|]. split; [done|].
    intros c' [->|Hin]%elem_of_cons; [by apply String.eqb_neq in Hc|by apply Hb].
Qed.

Lemma dns01_challenge_None (Challenges : list acme.Challenge) :
  (∀ c, c ∈ Challenges → acme.Type_ c ≠ "dns-01") →
  autocertdns.dns01_challenge Challenges = None.
Proof.
  induction Challenges as [|c rest IH]; [done|]. intros Hall. simpl.
  destruct (String.eqb (acme.Type_ c) "dns-01") eqn:Hc.
  - apply String.eqb_eq in Hc. destruct (Hall c); [by left|done].
  - apply IH. intros c' Hin. apply Hall. by right.
Qed.

(** X13.  The challenge [renew] accepts is the first challenge of type
    [dns-01] of the authorization it was given for the domain, and the token
    it has provisioned before is the [DNS01ChallengeRecord] of that
    challenge's token.  When the authorization offers no [dns-01] challenge,
    [renew] returns an error and provisions nothing. *)
Theorem renew_accepts_first_dns01_challenge {C B : Type}
    `{!autocertdns.Provisioner C B}
    (env : autocertdns.Env) (w : autocertdns.World C B) :
  let run := autocertdns.renew env w in
  let m := autocertdns.mgr w in
  (∀ client challenge,
     autocertdns.EvAccept client challenge ∈ run.2 →
     ∃ authz before after tok,
       acme.Authorize (autocertdns.server env) client (autocertdns.Domain m) = inl authz ∧
       acme.Challenges authz = before ++ challenge :: after ∧
       acme.Type_ challenge = "dns-01" ∧
       (∀ c, c ∈ before → acme.Type_ c ≠ "dns-01") ∧
       acme.DNS01ChallengeRecord (autocertdns.server env) client (acme.Token challenge)
       = inl tok ∧
       autocertdns.EvProvision "TXT" (challenge_name m) tok None ∈ run.2) ∧
  (∀ client authz,
     autocertdns.EvAuthorize client (autocertdns.Domain m) ∈ run.2 →
     acme.Authorize (autocertdns.server env) client (autocertdns.Domain m) = inl authz →
     (∀ c, c ∈ acme.Challenges authz → acme.Type_ c ≠ "dns-01") →
     run.1.1 = autocertdns.Return
                 (fmt_Errorf
                    "no dns-01 challenge found in challenges provided by the ACME server"
                    []) ∧
     ∀ typ name tok err, autocertdns.EvProvision typ name tok err ∉ run.2).
Proof.
  intros run m. subst run m. unfold challenge_name.
  destruct (autocertdns.renew env w) as [[o w'] evs] eqn:Hrun. simpl. revert Hrun.
  renew_paths ltac:(idtac).
  all: split;
    [ intros cl ch Hin; apply elem_of_steps_intro in Hin; [|done]; steps_in Hin;
      elems Hin; injection Hin as -> ->;
      destruct (dns01_challenge_Some _ _ HChallenge) as (before & after & Hl & Ht & Hb);
      exists authz, before, after, tok;
      (split; [exact HAuthorize|]); (split; [exact Hl|]); (split; [exact Ht|]);
      (split; [exact Hb|]); (split; [exact HToken|]);
      apply elem_of_steps_elim; steps_goal; repeat constructor
    | intros cl az Hin HAz Hnone; apply elem_of_steps_intro in Hin; [|done];
      steps_in Hin; elems Hin; injection Hin as ->;
      rewrite HAz in HAuthorize; try discriminate HAuthorize;
      injection HAuthorize as ->;
      rewrite (dns01_challenge_None _ Hnone) in HChallenge;
      try discriminate HChallenge ].
  split; [done|]. intros typ name tok err Hin.
  apply elem_of_steps_intro in Hin; [|done]. steps_in Hin. elems Hin.
Qed.

(** ** [renew] with the DigitalOcean provisioner *)

(** X14.  [renew] cleans up after itself at DigitalOcean.  When the API does
    not fail and the provisioner's domain held no TXT record under the
    challenge name before, the records of every domain are, when [renew]
    returns, what they were when it was called: however the execution ends,
    the challenge record it created is gone and no other record is touched. *)
Theorem renew_restores_zone (env : autocertdns.Env)
    (w : autocertdns.World godop.Client godo.Service)
    (c : godop.Client) (rs : list godo.DomainRecord) :
  autocertdns.Provisioner_ (autocertdns.mgr w) = Some c →
  godo.zones (autocertdns.backend w) !! godop.domain c = Some rs →
  godo.faults (autocertdns.backend w) = [] →
  (∀ r, r ∈ rs → godo.ID r ≠ godo.next_id (autocertdns.backend w)) →
  (∀ r, r ∈ rs → godo.Type_ r = "TXT" →
        godo.Name r +:+ "." +:+ godop.domain c ≠ challenge_name (autocertdns.mgr w)) →
  godo.zones (autocertdns.backend (autocertdns.renew env w).1.2)
  = godo.zones (autocertdns.backend w).
Proof.
  intros Hc Hrs Hfaults Hfresh Hnone. unfold challenge_name in Hnone.
  destruct (autocertdns.renew env w) as [[o w'] evs] eqn:Hrun. simpl. revert Hrun.
  renew_paths ltac:(idtac).
  all: simpl; rewrite ?Hbackend2, ?Hbackend1; try done.
  all: assert (provisioner = c) as -> by congruence.
  all: rewrite Hbackend1 in HProvision; simpl in HProvision.
  all: try (by eapply godop_Provision_failed).
  all: destruct (godop_round_trip _ _ _ _ _ _ HProvision Hrs Hfaults Hfresh Hnone)
         as (s2 & Hun & Hzones).
  all: simpl in HUnprovision; rewrite ?Hbackend2 in HUnprovision;
       rewrite Hun in HUnprovision.
  all: by injection HUnprovision as <- <-.
Qed.

(** A first issuance for [example.test], the domain [test] holding a record
    already. *)
Lemma renew_restores_zone_example :
  let www := godo.mkRecord 7 "A" "www" "192.0.2.1" in
  let w := autocertdns.mkWorld (manager_of "example.test" "test")
             (pemutil.mkFS ∅ [Some 1%nat; Some 2%nat] None None)
             (godo.mkService {[ "test" := [www] ]} 8 [] []) in
  let run := autocertdns.renew (autocertdns.mkEnv authority None) w in
  run.1.1 = autocertdns.Next tt ∧
  autocertdns.EvProvision "TXT" scenario_fqdn "digest-t1" None ∈ run.2 ∧
  godo.zones (autocertdns.backend run.1.2) = {[ "test" := [www] ]}.
Proof.
  intros www w run. split; [reflexivity|].
  split; [vm_compute; repeat constructor|].
  apply (renew_restores_zone (autocertdns.mkEnv authority None) w (godop.New "test") [www]).
  - reflexivity.
  - reflexivity.
  - reflexivity.
  - intros r [->|Hin]%elem_of_cons; [done|by apply elem_of_nil in Hin].
  - intros r [->|Hin]%elem_of_cons; [done|by apply elem_of_nil in Hin].
Defined.

(** ** [renew] with the Cloud DNS provisioner *)

Lemma gcdnsp_Provision_zone (c : gcdnsp.Client) (p token : string) (e : gcdnsp.Env)
    (rs : list dns.ResourceRecordSet) :
  let name := p +:+ "." +:+ gcdnsp.domain c in
  p ≠ "" →
  dns.zones (gcdnsp.svc e) !! (gcdnsp.projectID c, gcdnsp.managedZone c) = Some rs →
  mjoin (head (dns.faults (gcdnsp.svc e))) = None →
  dns.zones (gcdnsp.svc (gcdnsp.Provision c "TXT" name token e).2)
    !! (gcdnsp.projectID c, gcdnsp.managedZone c)
  = Some (rs ++ [dns.mkRRSet "TXT" (name +:+ ".") [token] 1]).
Proof.
  intros name Hp Hrs Hf. subst name.
  unfold gcdnsp.Provision, gcdnsp.allowedRecordType. simpl.
  rewrite HasSuffix_app, TrimSuffix_app, (eqb_empty _ Hp). simpl.
  unfold dns.ChangesCreate, dns.receive. rewrite Hf. simpl. rewrite Hrs.
  destruct (gcdnsp.Wait _); simpl; by rewrite lookup_insert_eq.
Qed.

(** X15.  With Cloud DNS, a failed propagation check leaves the challenge
    record set behind.  When the API has accepted the record set and
    [Provision] then returns an error, [renew] returns an error and, having
    never called [Unprovision], leaves the managed zone with the record set
    of the challenge in it. *)
Theorem renew_leaves_record_when_check_fails (env : autocertdns.Env)
    (w : autocertdns.World gcdnsp.Client gcdnsp.Env)
    (c : gcdnsp.Client) (rs : list dns.ResourceRecordSet)
    (p token : string) (failure : error) :
  let run := autocertdns.renew env w in
  let m := autocertdns.mgr w in
  let key := (gcdnsp.projectID c, gcdnsp.managedZone c) in
  autocertdns.Provisioner_ m = Some c →
  p ≠ "" →
  challenge_name m = p +:+ "." +:+ gcdnsp.domain c →
  dns.zones (gcdnsp.svc (autocertdns.backend w)) !! key = Some rs →
  mjoin (head (dns.faults (gcdnsp.svc (autocertdns.backend w)))) = None →
  autocertdns.EvProvision "TXT" (challenge_name m) token (Some failure) ∈ run.2 →
  (∃ err, run.1.1 = autocertdns.Return err) ∧
  List.filter is_unprovision run.2 = [] ∧
  dns.zones (gcdnsp.svc (autocertdns.backend run.1.2)) !! key
  = Some (rs ++ [dns.mkRRSet "TXT" (challenge_name m +:+ ".") [token] 1]).
Proof.
  intros run m key. subst run m key. unfold challenge_name.
  intros Hc Hp Hname Hrs Hf.
  destruct (autocertdns.renew env w) as [[o w'] evs] eqn:Hrun. simpl. revert Hrun.
  renew_paths ltac:(idtac).
  all: intros Hin.
  all: rewrite <- unprovision_steps.
  all: apply elem_of_steps_intro in Hin; [|done]; steps_in Hin; elems Hin.
  injection Hin as -> ->.
  split; [by eexists|]. split; [by steps_goal|]. simpl.
  assert (provisioner = c) as -> by congruence.
  rewrite Hbackend1 in HProvision. simpl in HProvision.
  rewrite Hname in HProvision |- *.
  pose proof (gcdnsp_Provision_zone c p tok (autocertdns.backend w) rs Hp Hrs Hf) as Hzone.
  simpl in Hzone. by rewrite HProvision in Hzone.
Qed.

(** Nameservers that never answer. *)
Lemma renew_leaves_record_when_check_fails_example :
  let m := autocertdns.mkManager "" (Some autocertdns.AcceptTOS) "cache"
             "admin@example.test" "example.test" 0 (Some (cloud_client "test"))
             true false None 0 in
  let silent := gcdnsp.mkEnv (dns.mkService {[ ("project", "zone") := [] ]} 99 [] [])
                  (fun _ _ => []) context_DeadlineExceeded [] in
  let w := autocertdns.mkWorld m (pemutil.mkFS ∅ [Some 1%nat; Some 2%nat] None None)
             silent in
  let run := autocertdns.renew (autocertdns.mkEnv authority None) w in
  autocertdns.EvProvision "TXT" scenario_fqdn "digest-t1" (Some context_DeadlineExceeded)
  ∈ run.2 ∧
  dns.zones (gcdnsp.svc (autocertdns.backend run.1.2)) !! ("project", "zone")
  = Some [dns.mkRRSet "TXT" "_acme-challenge.example.test." ["digest-t1"] 1].
Proof.
  intros m silent w run.
  assert (autocertdns.EvProvision "TXT" scenario_fqdn "digest-t1"
            (Some context_DeadlineExceeded) ∈ run.2) as Hin
    by (vm_compute; repeat constructor).
  split; [exact Hin|].
  destruct (renew_leaves_record_when_check_fails (autocertdns.mkEnv authority None) w
              (cloud_client "test") [] "_acme-challenge.example" "digest-t1"
              context_DeadlineExceeded) as (_ & _ & Hzone).
  - reflexivity.
  - done.
  - reflexivity.
  - reflexivity.
  - reflexivity.
  - exact Hin.
  - exact Hzone.
Defined.

(** ** [afterRenew]: when the timer fires *)

(** X16.  [afterRenew] reads the next expiry under the read lock and changes
    nothing; the timer it sets fires at the next expiry: at once when that
    instant is past, and never later than the longest [Duration] from now. *)
Theorem afterRenew_fires_at_expiry {C B : Type} `{!autocertdns.Provisioner C B}
    (now : time.Time) (w : autocertdns.World C B) :
  ∃ d,
    autocertdns.afterRenew now w
    = (autocertdns.Next d, w, [autocertdns.EvRLock; autocertdns.EvRUnlock]) ∧
    time.After now d
    = Z.max now (Z.min (autocertdns.nextExpiry (autocertdns.mgr w))
                       (now + time.maxDuration)).
Proof.
  eexists. split; [apply afterRenew_run|].
  unfold time.After, time.Sub, time.minDuration, time.maxDuration.
  change (2 ^ 63) with 9223372036854775808. lia.
Qed.

(** ** [cachedCert] *)

(** X17.  [cachedCert] only loads [<CacheDir>/<domain>.crt] and changes
    nothing.  It never returns a signer or an expiry: when the file holds a
    certificate it returns [nil], the zero time and no error.  A missing file
    is reported as "does not contain a certificate", as is a PEM file without
    a certificate; any other failure of the load is returned as it is. *)
Theorem cachedCert_returns_no_certificate {C B : Type} `{!autocertdns.Provisioner C B}
    (domain : string) (w : autocertdns.World C B) :
  let certPath :=
    filepath.Join (autocertdns.CacheDir (autocertdns.mgr w)) (domain +:+ ".crt") in
  let missing := fmt_Errorf "%s does not contain a certificate" [ArgString certPath] in
  ∃ r,
    autocertdns.call (autocertdns.cachedCert domain) w
    = (autocertdns.Next r, w, [autocertdns.EvLoadFile certPath]) ∧
    r = match pemutil.files (autocertdns.fs w) !! certPath with
        | None => inr missing
        | Some (pemutil.Unreadable msg) => inr (errors_New msg)
        | Some (pemutil.PEM store) =>
            match pemutil.Certificate store with
            | None => inr missing
            | Some _ => inl (None, autocertdns.zeroTime)
            end
        end.
Proof.
  intros certPath missing. subst missing.
  unfold autocertdns.call, autocertdns.cachedCert, autocertdns.bind, autocertdns.receiver,
    autocertdns.emit, autocertdns.on_fs, autocertdns.ret, autocertdns.return_.
  simpl. change (filepath.Join _ (domain +:+ autocertdns.certSuffix)) with certPath.
  unfold pemutil.LoadFile. destruct w as [m fs b]. simpl in *.
  destruct (pemutil.files fs !! certPath) as [[store|msg]|]; simpl.
  - destruct (pemutil.Certificate store); simpl; by eexists.
  - by eexists.
  - by eexists.
Qed.

(** ** [loadZone] *)

Section LoadZone.

Import autogcdns.

Variable flagDomain : string.

Lemma longer_chosen (zone z : ManagedZone) :
  longer flagDomain zone z = zone ∨ longer flagDomain zone z = z.
Proof. unfold longer. destruct (_ && _); auto. Qed.

Lemma foldl_longer_elem (first : ManagedZone) (zones : list ManagedZone) :
  foldl (longer flagDomain) first zones ∈ first :: zones.
Proof.
  revert first. induction zones as [|z zones IH]; intros first; simpl; [by left|].
  destruct (longer_chosen first z) as [->| ->].
  - pose proof (IH first) as Hin.
    apply elem_of_cons in Hin as [->|Hin]; [by left|by do 2 right].
  - pose proof (IH z) as Hin. by right.
Qed.

Lemma foldl_longer_stuck (first : ManagedZone) (zones : list ManagedZone) :
  strings.HasSuffix flagDomain (DnsName first) = false →
  foldl (longer flagDomain) first zones = first.
Proof.
  intros Hfirst. induction zones as [|z zones IH]; simpl; [done|].
  unfold longer at 2. by rewrite Hfirst.
Qed.

Lemma foldl_longer_max (first : ManagedZone) (zones : list ManagedZone) :
  (∀ z, z ∈ first :: zones → strings.HasSuffix flagDomain (DnsName z) = true) →
  ∀ z, z ∈ first :: zones →
    (String.length (DnsName z)
     ≤ String.length (DnsName (foldl (longer flagDomain) first zones)))%nat.
Proof.
  revert first. induction zones as [|z0 zones IH]; intros first Hall z Hz; simpl.
  - apply elem_of_cons in Hz as [->|Hz]; [done|by apply elem_of_nil in Hz].
  - assert (∀ z', z' ∈ longer flagDomain first z0 :: zones →
              strings.HasSuffix flagDomain (DnsName z') = true) as Hall'.
    { intros z' [->|Hin]%elem_of_cons.
      - destruct (longer_chosen first z0) as [->| ->]; apply Hall; [by left|by right; left].
      - apply Hall. by do 2 right. }
    assert (String.length (DnsName first)
            ≤ String.length (DnsName (longer flagDomain first z0)) ∧
            String.length (DnsName z0)
            ≤ String.length (DnsName (longer flagDomain first z0)))%nat as [H1 H2].
    { unfold longer. rewrite (Hall first) by (by left). simpl.
      destruct (_ <? _)%nat eqn:Hlt;
        [apply Nat.ltb_lt in Hlt|apply Nat.ltb_ge in Hlt]; lia. }
    pose proof (IH _ Hall' (longer flagDomain first z0) ltac:(by left)) as Hmax.
    apply elem_of_cons in Hz as [->|[->|Hz]%elem_of_cons].
    + lia.
    + lia.
    + apply (IH _ Hall'). by right.
Qed.

End LoadZone.

(** X18.  [loadZone] passes on the error of the listing, reports a project
    without managed zones, and otherwise answers only with the name of a
    listed zone whose DNS name is a suffix of the domain. *)
Theorem loadZone_sound (flagProject flagDomain : string) :
  (∀ err, autogcdns.loadZone flagProject flagDomain (inr err) = inr err) ∧
  autogcdns.loadZone flagProject flagDomain (inl [])
  = inr (fmt_Errorf "no managed zones in project %q" [ArgString flagProject]) ∧
  (∀ zones name,
     autogcdns.loadZone flagProject flagDomain (inl zones) = inl name →
     ∃ z, z ∈ zones ∧ autogcdns.Name z = name ∧
          strings.HasSuffix flagDomain (autogcdns.DnsName z) = true).
Proof.
  split; [done|]. split; [done|]. intros [|first rest] name; [done|].
  unfold autogcdns.loadZone.
  set (zone := foldl (autogcdns.longer flagDomain) first (first :: rest)).
  destruct (strings.HasSuffix flagDomain (autogcdns.DnsName zone)) eqn:Hsuffix; [|done].
  simpl. intros [= <-]. exists zone. split; [|done].
  pose proof (foldl_longer_elem flagDomain first (first :: rest)) as Hin. fold zone in Hin.
  apply elem_of_cons in Hin as [->|Hin]; [by left|done].
Qed.

(** X19.  [loadZone] looks for a longer zone only while the zone it holds
    matches the domain, and it starts with the first listed zone: when the DNS
    name of that zone is not a suffix of the domain, it answers "can not
    find the managed zone name", whatever zones follow. *)
Theorem loadZone_first_zone_decides (flagProject flagDomain : string)
    (first : autogcdns.ManagedZone) (rest : list autogcdns.ManagedZone) :
  strings.HasSuffix flagDomain (autogcdns.DnsName first) = false →
  autogcdns.loadZone flagProject flagDomain (inl (first :: rest))
  = inr (fmt_Errorf "can not find the managed zone name in project %q for domain %q"
           [ArgString flagProject; ArgString flagDomain]).
Proof.
  intros Hfirst. unfold autogcdns.loadZone.
  rewrite (foldl_longer_stuck flagDomain first (first :: rest) Hfirst).
  by rewrite Hfirst.
Qed.

(** The zone of the domain is listed second. *)
Lemma loadZone_first_zone_decides_example :
  let other := autogcdns.mkZone "other" "example.org." in
  let zone := autogcdns.mkZone "zone" "example.test." in
  strings.HasSuffix "www.example.test." (autogcdns.DnsName zone) = true ∧
  autogcdns.loadZone "project" "www.example.test." (inl [zone; other]) = inl "zone" ∧
  autogcdns.loadZone "project" "www.example.test." (inl [other; zone])
  = inr (fmt_Errorf "can not find the managed zone name in project %q for domain %q"
           [ArgString "project"; ArgString "www.example.test."]).
Proof.
  intros other zone. split; [reflexivity|]. split; [reflexivity|].
  apply (loadZone_first_zone_decides "project" "www.example.test." other [zone]).
  reflexivity.
Defined.

(** X20.  When the DNS name of every listed zone is a suffix of the domain,
    [loadZone] answers with the name of a listed zone whose DNS name is the
    longest. *)
Theorem loadZone_longest_match (flagProject flagDomain : string)
    (zones : list autogcdns.ManagedZone) :
  zones ≠ [] →
  (∀ z, z ∈ zones → strings.HasSuffix flagDomain (autogcdns.DnsName z) = true) →
  ∃ zone,
    zone ∈ zones ∧
    autogcdns.loadZone flagProject flagDomain (inl zones) = inl (autogcdns.Name zone) ∧
    ∀ z, z ∈ zones →
      (String.length (autogcdns.DnsName z) ≤ String.length (autogcdns.DnsName zone))%nat.
Proof.
  destruct zones as [|first rest]; [done|]. intros _ Hall.
  assert (∀ z, z ∈ first :: first :: rest →
            strings.HasSuffix flagDomain (autogcdns.DnsName z) = true) as Hall'.
  { intros z [->|Hin]%elem_of_cons; apply Hall; [by left|done]. }
  pose proof (foldl_longer_elem flagDomain first (first :: rest)) as Hin.
  pose proof (foldl_longer_max flagDomain first (first :: rest) Hall') as Hmax.
  unfold autogcdns.loadZone.
  set (zone := foldl (autogcdns.longer flagDomain) first (first :: rest)) in *.
  assert (zone ∈ first :: rest) as Hzone.
  { apply elem_of_cons in Hin as [->|Hin]; [by left|done]. }
  exists zone. split; [done|]. rewrite (Hall zone Hzone). simpl. split; [done|].
  intros z Hz. apply Hmax. by right.
Qed.

(** A zone and a zone delegated from it. *)
Lemma loadZone_longest_match_example :
  let parent := autogcdns.mkZone "parent" "example.test." in
  let child := autogcdns.mkZone "child" "dev.example.test." in
  autogcdns.loadZone "project" "www.dev.example.test." (inl [parent; child]) = inl "child".
Proof.
  intros parent child.
  destruct (loadZone_longest_match "project" "www.dev.example.test." [parent; child])
    as (zone & Hin & Hrun & Hmax).
  - done.
  - intros z [->|[->|Hz]%elem_of_cons]%elem_of_cons;
      [reflexivity|reflexivity|by apply elem_of_nil in Hz].
  - rewrite Hrun. f_equal.
    apply elem_of_cons in Hin as [->|[->|Hz]%elem_of_cons];
      [|reflexivity|by apply elem_of_nil in Hz].
    specialize (Hmax child ltac:(by right; left)). simpl in Hmax. lia.
Defined.
